(** * Backend-process supervisor of the Badge Management System (main.js)

    A shallow embedding of the Electron main process' supervision logic:
    the [.env] overlay parser ([loadEnvFile]), the merged child environment,
    the bounded health poller ([checkFlaskServer]), the event-driven startup
    sequence ([startFlaskServer]), teardown ([stopFlaskServer]), the port
    check ([isPortAvailable]) and the [app.whenReady] orchestration.

    Conventions.
    - JS strings are [string]s whose characters are code units below 256.
    - A JS object used as a dictionary is a [gmap string string] holding its
      own properties; assignment goes through [setProperty], which accounts
      for the one accessor a plain object inherits ([__proto__]).
    - Callbacks registered on the child process, on timers and on HTTP
      requests become events consumed by a step function; the effects the
      handlers perform (spawn, kill, probes, timers, IPC sends) are appended
      to a log. A request may call back more than once: the step function
      keeps, per poll, how many requests are in which state. *)

From Stdlib Require Import ZArith Ascii String.
From stdpp Require Import gmap strings list fin_maps.

Local Open Scope Z_scope.

(** ** JavaScript string primitives used by main.js *)

Module JsString.

(** [WhiteSpace] and [LineTerminator] code units below 256, as stripped by
    [String.prototype.trim]: TAB, LF, VT, FF, CR, SP and NBSP. *)
Definition is_white (c : ascii) : bool :=
  match c with
  | "009" | "010" | "011" | "012" | "013" | " " | "160" => true
  | _ => false
  end%char.

Definition is_empty (s : string) : bool :=
  match s with "" => true | _ => false end.

(** Truthiness of a string value: only the empty string is falsy. *)
Definition truthy (s : string) : bool := negb (is_empty s).

Fixpoint trimStart (s : string) : string :=
  match s with
  | "" => ""
  | String c s' => if is_white c then trimStart s' else s
  end.

Fixpoint trimEnd (s : string) : string :=
  match s with
  | "" => ""
  | String c s' =>
      let r := trimEnd s' in
      if is_white c && is_empty r then "" else String c r
  end.

Definition trim (s : string) : string := trimEnd (trimStart s).

(** [s.split(sep)] for a one-character separator: never the empty list. *)
Fixpoint split (sep : ascii) (s : string) : list string :=
  match s with
  | "" => [""]
  | String c s' =>
      if Ascii.eqb c sep then "" :: split sep s'
      else match split sep s' with
           | [] => [String c ""]
           | h :: t => String c h :: t
           end
  end.

(** [parts.join(sep)] *)
Fixpoint join (sep : string) (parts : list string) : string :=
  match parts with
  | [] => ""
  | [p] => p
  | p :: rest => p +:+ sep +:+ join sep rest
  end.

Fixpoint startsWith (p s : string) : bool :=
  match p, s with
  | "", _ => true
  | String a p', String b s' => Ascii.eqb a b && startsWith p' s'
  | String _ _, "" => false
  end.

(** [s.includes(needle)] *)
Fixpoint includes (needle s : string) : bool :=
  startsWith needle s ||
  match s with
  | "" => false
  | String _ s' => includes needle s'
  end.

End JsString.

(** ** loadEnvFile (main.js, lines 25-46) *)

(** The body of the [forEach] callback up to the assignment: the binding a
    line contributes, if any. *)
Definition parseEnvLine (line : string) : option (string * string) :=
  let line := JsString.trim line in
  if JsString.truthy line && negb (JsString.startsWith "#" line) then
    match JsString.split "=" line with
    | key :: valueParts =>
        if JsString.truthy key && (0 <? Z.of_nat (length valueParts)) then
          Some (JsString.trim key, JsString.trim (JsString.join "=" valueParts))
        else None
    | [] => None
    end
  else None.

(** [obj[key] = value] on an object created by [{}], for a string [value].
    An ordinary key becomes (or updates) an own property. The key
    [__proto__] reaches the accessor inherited from [Object.prototype],
    whose setter ignores a value that is not an object: nothing is stored. *)
Definition setProperty (key value : string) (obj : gmap string string)
  : gmap string string :=
  if String.eqb key "__proto__" then obj else <[key := value]> obj.

(** [envVars[key.trim()] = ...] for one line. *)
Definition envLineStep (envVars : gmap string string) (line : string)
  : gmap string string :=
  match parseEnvLine line with
  | Some (k, v) => setProperty k v envVars
  | None => envVars
  end.

Definition loadEnvLines (lines : list string) : gmap string string :=
  foldl envLineStep ∅ lines.

(** [file] is the content of [.env] when [fs.existsSync(envPath)] holds. *)
Definition loadEnvFile (file : option string) : gmap string string :=
  match file with
  | Some envContent => loadEnvLines (JsString.split "010" envContent)
  | None => ∅
  end.


(** ** Configuration globals and the child environment
    (main.js, lines 20-22 and 702-710) *)

(** [process.env.X || dflt]: an unset or empty variable falls back. *)
Definition envOr (penv : gmap string string) (name dflt : string) : string :=
  match penv !! name with
  | Some v => if JsString.truthy v then v else dflt
  | None => dflt
  end.

Definition FLASK_PORT (penv : gmap string string) : string :=
  envOr penv "FLASK_PORT" "5000".

Definition FLASK_HOST (penv : gmap string string) : string :=
  envOr penv "FLASK_HOST" "127.0.0.1".

(** Object spread [{...target, ...src}]: properties of [src] win. *)
Definition spread (target src : gmap string string) : gmap string string :=
  src ∪ target.

(** The object literal bound to [flaskEnv], property by property. *)
Definition flaskEnv (penv envVars : gmap string string) (isDev : bool)
  : gmap string string :=
  <["PYTHONUNBUFFERED" := "1"]>
  (<["FLASK_DEBUG" := if isDev then "True" else "False"]>
  (<["FLASK_HOST" := FLASK_HOST penv]>
  (<["FLASK_PORT" := FLASK_PORT penv]>
  (spread (spread ∅ penv) envVars)))).

(** The explicit runtime layer on its own, for comparison with [flaskEnv]. *)
Definition runtimeOverrides (penv : gmap string string) (isDev : bool)
  : gmap string string :=
  {[ "FLASK_PORT" := FLASK_PORT penv;
     "FLASK_HOST" := FLASK_HOST penv;
     "FLASK_DEBUG" := if isDev then "True" else "False";
     "PYTHONUNBUFFERED" := "1" ]}.

(** Lookup through three layers, the first that binds the key winning. *)
Definition layered (top mid bot : gmap string string) (k : string)
  : option string :=
  match top !! k with
  | Some v => Some v
  | None => match mid !! k with
            | Some v => Some v
            | None => bot !! k
            end
  end.

(** ** getPythonPath (main.js, lines 51-69) *)

Definition pythonCommands (win32 : bool) : list string :=
  if win32 then ["python"; "python3"; "py"] else ["python3"; "python"].

(** [works cmd] tells whether [execSync(cmd --version)] returns normally;
    [None] stands for the thrown "Python not found" error. *)
Definition getPythonPath (win32 : bool) (works : string → bool)
  : option string :=
  List.find works (pythonCommands win32).

(** ** checkFlaskServer (main.js, lines 79-125) *)

(** The callbacks [check] attaches to a request, as Node invokes them: the
    response callback with the status code; the ['error'] listener, for a
    connection that fails and for a request destroyed before any response
    arrived (Node reports the hang-up on the request); the ['timeout']
    listener on a request still waiting for its response; and the same
    ['timeout'] listener on a request whose response has arrived (the
    callback never reads the body, so a socket the server keeps open idles
    for the same 2000 ms). *)
Inductive ProbeOutcome :=
| Response (statusCode : Z)
| RequestError
| RequestTimeout
| IdleTimeout.

#[global] Instance ProbeOutcome_eq_dec : EqDecision ProbeOutcome.
Proof. solve_decision. Defined.

Inductive Verdict :=
| Resolve
| Reject (message : string).

(** The closure variables of one [checkFlaskServer] call. *)
Record Poller := mkPoller {
  maxRetries : nat;
  retryDelay : Z;
  retries : nat
}.

Definition notResponding : string := "Flask server did not respond in time".

(** What a poll does to the outside world. *)
Inductive PollEffect :=
| Request                  (* [http.request(options, ...)], [req.end()] *)
| Timer (ms : Z)           (* [setTimeout(check, ms)] *)
| Settled (v : Verdict).   (* the promise settles, its continuations run *)

(** One call of [checkFlaskServer]: the closure, the promise it returned,
    and what the runtime holds for it. Requests are told apart by state
    only. *)
Record PollerRun := mkRun {
  vars : Poller;
  settled : option Verdict;   (* [None] while the promise is pending *)
  waiting : nat;              (* requests sent, nothing received yet *)
  answered : nat;             (* response received and left unread *)
  hungUp : nat;               (* destroyed unanswered: ['error'] is due *)
  timers : nat                (* pending [setTimeout(check, retryDelay)] *)
}.

(** [check]: one more request goes out. *)
Definition check (r : PollerRun) : PollerRun * list PollEffect :=
  (mkRun (vars r) (settled r) (S (waiting r)) (answered r) (hungUp r)
         (timers r),
   [Request]).

(** [resolve(true)] and [reject(...)]: only the first call settles. *)
Definition settle (v : Verdict) (r : PollerRun) : PollerRun * list PollEffect :=
  match settled r with
  | None =>
      (mkRun (vars r) (Some v) (waiting r) (answered r) (hungUp r) (timers r),
       [Settled v])
  | Some _ => (r, [])
  end.

(** [retryCheck]: [retries++], then another round or the rejection. *)
Definition retryCheck (r : PollerRun) : PollerRun * list PollEffect :=
  let p := mkPoller (maxRetries (vars r)) (retryDelay (vars r))
                    (S (retries (vars r))) in
  if (retries p <? maxRetries p)%nat
  then (mkRun p (settled r) (waiting r) (answered r) (hungUp r)
              (S (timers r)),
        [Timer (retryDelay p)])
  else settle (Reject notResponding)
              (mkRun p (settled r) (waiting r) (answered r) (hungUp r)
                     (timers r)).

(** [req.destroy()] on the request whose ['timeout'] listener is running.
    Destroying a request that has had no response makes the runtime emit
    ['error'] on it; after a response nothing more is emitted on the
    request. *)
Definition destroy (responded : bool) (r : PollerRun) : PollerRun :=
  if responded then r
  else mkRun (vars r) (settled r) (waiting r) (answered r) (S (hungUp r))
             (timers r).

(** The three callbacks [check] attaches to a request; the ['timeout']
    listener comes twice, for a request without and with a response. *)
Definition onProbe (o : ProbeOutcome) (r : PollerRun)
  : PollerRun * list PollEffect :=
  match o with
  | Response statusCode =>
      if statusCode =? 200 then settle Resolve r else retryCheck r
  | RequestError => retryCheck r
  | RequestTimeout => retryCheck (destroy false r)
  | IdleTimeout => retryCheck (destroy true r)
  end.

(** Which request can make a callback, and where that leaves it: a response
    or a timeout needs a request still waiting; an error comes from a request
    that was hung up on or from one still waiting; an idle timeout needs an
    answered request. [None] when no request of the poll is in such a
    state. *)
Definition fires (o : ProbeOutcome) (r : PollerRun) : option PollerRun :=
  match o with
  | Response _ =>
      match waiting r with
      | S n => Some (mkRun (vars r) (settled r) n (S (answered r)) (hungUp r)
                           (timers r))
      | O => None
      end
  | RequestError =>
      match hungUp r, waiting r with
      | S n, _ => Some (mkRun (vars r) (settled r) (waiting r) (answered r) n
                              (timers r))
      | O, S n => Some (mkRun (vars r) (settled r) n (answered r) O (timers r))
      | O, O => None
      end
  | RequestTimeout =>
      match waiting r with
      | S n => Some (mkRun (vars r) (settled r) n (answered r) (hungUp r)
                           (timers r))
      | O => None
      end
  | IdleTimeout =>
      match answered r with
      | S n => Some (mkRun (vars r) (settled r) (waiting r) n (hungUp r)
                           (timers r))
      | O => None
      end
  end.

(** A callback of one of the poll's requests runs, if one is due. *)
Definition onListener (o : ProbeOutcome) (r : PollerRun)
  : PollerRun * list PollEffect :=
  match fires o r with
  | None => (r, [])
  | Some r => onProbe o r
  end.

(** A pending [setTimeout(check, retryDelay)] fires. *)
Definition onRetry (r : PollerRun) : PollerRun * list PollEffect :=
  match timers r with
  | O => (r, [])
  | S n =>
      check (mkRun (vars r) (settled r) (waiting r) (answered r) (hungUp r) n)
  end.

(** The body of the promise executor: fresh closure, first request. *)
Definition checkFlaskServer (maxRetries : nat) (retryDelay : Z)
  : PollerRun * list PollEffect :=
  check (mkRun (mkPoller maxRetries retryDelay 0) None 0 0 0 0).

(** A poll on its own, driven by what happens to its requests and timers. *)
Inductive PollEvent :=
| Fires (o : ProbeOutcome)
| RetryFired.

Definition pollStep (r : PollerRun) (e : PollEvent)
  : PollerRun * list PollEffect :=
  match e with
  | Fires o => onListener o r
  | RetryFired => onRetry r
  end.

(** Runs the events in order, collecting the effects. *)
Fixpoint pollRun (st : PollerRun * list PollEffect) (es : list PollEvent)
  : PollerRun * list PollEffect :=
  match es with
  | [] => st
  | e :: es' =>
      let st' := pollStep (fst st) e in
      pollRun (fst st', snd st ++ snd st') es'
  end.


(** ** Effects, errors and promises *)

Inductive Signal := SIGTERM | SIGKILL.

(** The two call sites of [checkFlaskServer] inside [startFlaskServer]. *)
Inductive PollerId := AfterSignature | AfterTimeout.

#[global] Instance PollerId_eq_dec : EqDecision PollerId.
Proof. solve_decision. Defined.

Inductive TimerId :=
| StartupTimer
| RetryTimer (who : PollerId)
| GraceTimer.

(** Payload of the ['flask-server-ready'] message. *)
Record ReadyPayload := mkReady {
  url : string;
  host : string;
  port : string
}.

Inductive Action :=
| Spawn (command : string) (args : list string) (env : gmap string string)
| Kill (sig : Signal)
| HttpGet (who : PollerId)
| SetTimeout (t : TimerId) (ms : Z)
| ShowDialog (title : string)
| Quit
| CreateWindow
| Send (channel : string) (payload : ReadyPayload).

Inductive JsError := TypeError (what : string).

Inductive Exc (A : Type) :=
| Ok (a : A)
| Throw (e : JsError).
Arguments Ok {A} a.
Arguments Throw {A} e.

Definition bindExc {A B : Type} (m : Exc A) (k : A → Exc B) : Exc B :=
  match m with
  | Ok a => k a
  | Throw e => Throw e
  end.

#[global] Instance Exc_ret : MRet Exc := @Ok.
#[global] Instance Exc_bind : MBind Exc := fun A B k m => bindExc m k.

(** State of the promise returned by [startFlaskServer]; only the first
    [resolve] or [reject] has an effect. *)
Inductive Promise :=
| Pending
| Fulfilled
| Rejected (reason : string).

Definition resolve (p : Promise) : Promise :=
  match p with Pending => Fulfilled | _ => p end.

Definition reject (reason : string) (p : Promise) : Promise :=
  match p with Pending => Rejected reason | _ => p end.

(** ** The supervisor's mutable state *)

Inductive ChildProcess := TheChild.

Record Sup := mkSup {
  flaskProcess : option ChildProcess;  (* the global variable *)
  listening : bool;                    (* listeners attached to a child *)
  serverStarted : bool;
  startupOutput : string;
  startup : Promise;
  startupTimer : bool;                 (* the 15000 ms timer is pending *)
  graceTimers : nat;                   (* pending 5000 ms timers *)
  sigPoll : option PollerRun;          (* checkFlaskServer(10, 1000) *)
  toPoll : option PollerRun;           (* checkFlaskServer(5, 1000) *)
  log : list Action
}.

Definition idle : Sup :=
  mkSup None false false "" Pending false 0 None None [].

Definition setProcess (v : option ChildProcess) (s : Sup) : Sup :=
  mkSup v (listening s) (serverStarted s) (startupOutput s) (startup s)
        (startupTimer s) (graceTimers s) (sigPoll s) (toPoll s) (log s).

Definition setStarted (v : bool) (s : Sup) : Sup :=
  mkSup (flaskProcess s) (listening s) v (startupOutput s) (startup s)
        (startupTimer s) (graceTimers s) (sigPoll s) (toPoll s) (log s).

Definition setOutput (v : string) (s : Sup) : Sup :=
  mkSup (flaskProcess s) (listening s) (serverStarted s) v (startup s)
        (startupTimer s) (graceTimers s) (sigPoll s) (toPoll s) (log s).

Definition setStartup (v : Promise) (s : Sup) : Sup :=
  mkSup (flaskProcess s) (listening s) (serverStarted s) (startupOutput s) v
        (startupTimer s) (graceTimers s) (sigPoll s) (toPoll s) (log s).

Definition setStartupTimer (v : bool) (s : Sup) : Sup :=
  mkSup (flaskProcess s) (listening s) (serverStarted s) (startupOutput s)
        (startup s) v (graceTimers s) (sigPoll s) (toPoll s) (log s).

Definition setGraceTimers (v : nat) (s : Sup) : Sup :=
  mkSup (flaskProcess s) (listening s) (serverStarted s) (startupOutput s)
        (startup s) (startupTimer s) v (sigPoll s) (toPoll s) (log s).

Definition getPoll (who : PollerId) (s : Sup) : option PollerRun :=
  match who with
  | AfterSignature => sigPoll s
  | AfterTimeout => toPoll s
  end.

Definition setPoll (who : PollerId) (v : option PollerRun) (s : Sup) : Sup :=
  match who with
  | AfterSignature =>
      mkSup (flaskProcess s) (listening s) (serverStarted s) (startupOutput s)
            (startup s) (startupTimer s) (graceTimers s) v (toPoll s) (log s)
  | AfterTimeout =>
      mkSup (flaskProcess s) (listening s) (serverStarted s) (startupOutput s)
            (startup s) (startupTimer s) (graceTimers s) (sigPoll s) v (log s)
  end.

Definition emit (acts : list Action) (s : Sup) : Sup :=
  mkSup (flaskProcess s) (listening s) (serverStarted s) (startupOutput s)
        (startup s) (startupTimer s) (graceTimers s) (sigPoll s) (toPoll s)
        (log s ++ acts).

(** ** startFlaskServer (main.js, lines 685-798) *)

(** What the machine the application runs on answers. *)
Record Host := mkHost {
  win32 : bool;
  works : string → bool;        (* execSync(cmd --version) succeeds *)
  scriptExists : bool;          (* fs.existsSync(scriptPath) *)
  penv : gmap string string;    (* process.env *)
  envFile : option string;      (* content of .env, when present *)
  isDev : bool;                 (* !app.isPackaged *)
  portBusy : bool;              (* (FLASK_HOST, FLASK_PORT) already bound *)
  portChoice : Z;               (* button picked in the "Port occupé" box *)
  failChoice : Z                (* button picked in the startup-error box *)
}.

Definition scriptPath : string := "api_server.py".

Definition startTimeoutMsg : string := "Flask server did not start in time".

(** The [.then] / [.catch] continuations attached at the two call sites. *)
Definition pollSettled (who : PollerId) (v : Verdict) (s : Sup) : Sup :=
  match who, v with
  | AfterSignature, Resolve => setStartup (resolve (startup s)) s
  | AfterSignature, Reject err => setStartup (reject err (startup s)) s
  | AfterTimeout, Resolve =>
      let s := setStarted true s in setStartup (resolve (startup s)) s
  | AfterTimeout, Reject _ =>
      setStartup (reject startTimeoutMsg (startup s)) s
  end.

(** The effects of poll [who] carried out by the supervisor. *)
Definition performOne (who : PollerId) (s : Sup) (x : PollEffect) : Sup :=
  match x with
  | Request => emit [HttpGet who] s
  | Timer ms => emit [SetTimeout (RetryTimer who) ms] s
  | Settled v => pollSettled who v s
  end.

Definition perform (who : PollerId) (fx : list PollEffect) (s : Sup) : Sup :=
  foldl (performOne who) s fx.

(** One step of poll [who], if it has been started. *)
Definition withPoll (who : PollerId)
    (f : PollerRun → PollerRun * list PollEffect) (s : Sup) : Sup :=
  match getPoll who s with
  | Some r => perform who (snd (f r)) (setPoll who (Some (fst (f r))) s)
  | None => s
  end.

(** A call of [checkFlaskServer] at call site [who]. *)
Definition startPoll (who : PollerId) (maxRetries : nat) (retryDelay : Z)
    (s : Sup) : Sup :=
  perform who (snd (checkFlaskServer maxRetries retryDelay))
    (setPoll who (Some (fst (checkFlaskServer maxRetries retryDelay))) s).

Definition startFlaskServer (h : Host) (s : Sup) : Sup :=
  match getPythonPath (win32 h) (works h) with
  | None =>
      setStartup (reject "Python not found. Please install Python 3.7+"
                         (startup s)) s
  | Some pythonPath =>
      if negb (scriptExists h) then
        setStartup (reject ("Script Flask introuvable: " +:+ scriptPath)
                           (startup s)) s
      else
        let env := flaskEnv (penv h) (loadEnvFile (envFile h)) (isDev h) in
        emit [Spawn pythonPath [scriptPath] env; SetTimeout StartupTimer 15000]
          (mkSup (Some TheChild) true false "" (startup s) true
                 (graceTimers s) (sigPoll s) (toPoll s) (log s))
  end.

Definition readySignature (output : string) : bool :=
  JsString.includes "Running on" output ||
  JsString.includes "Serving Flask" output ||
  JsString.includes "Server starting" output.

Definition fatalSignature (output : string) : bool :=
  JsString.includes "Address already in use" output ||
  JsString.includes "Permission denied" output ||
  JsString.includes "ModuleNotFoundError" output ||
  JsString.includes "ImportError" output.

(** [flaskProcess.stdout.on('data', ...)] *)
Definition onStdout (output : string) (s : Sup) : Sup :=
  let s := setOutput (startupOutput s +:+ output) s in
  if readySignature output && negb (serverStarted s) then
    startPoll AfterSignature 10 1000 (setStarted true s)
  else s.

(** [flaskProcess.stderr.on('data', ...)] *)
Definition onStderr (output : string) (s : Sup) : Sup :=
  if fatalSignature output then
    if negb (serverStarted s) then setStartup (reject output (startup s)) s
    else s
  else s.

(** [flaskProcess.on('error', ...)] *)
Definition onProcError (message : string) (s : Sup) : Sup :=
  if negb (serverStarted s) then setStartup (reject message (startup s)) s
  else s.

(** [flaskProcess.on('close', ...)] *)
Definition onClose (code : option Z) (s : Sup) : Sup :=
  setProcess None s.

(** The callback of [setTimeout(..., 15000)]. *)
Definition onStartupTimer (s : Sup) : Sup :=
  if negb (serverStarted s) then startPoll AfterTimeout 5 1000 s else s.

(** A callback of a request of poll [who] runs. *)
Definition onProbeDone (who : PollerId) (o : ProbeOutcome) (s : Sup) : Sup :=
  withPoll who (onListener o) s.

(** A [setTimeout(check, retryDelay)] of poll [who] fires. *)
Definition onRetryTimer (who : PollerId) (s : Sup) : Sup :=
  withPoll who onRetry s.

(** ** stopFlaskServer (main.js, lines 801-817) *)

(** [target.kill(sig)]: a method call on [null] throws. *)
Definition kill (target : option ChildProcess) (sig : Signal) (s : Sup)
  : Exc Sup :=
  match target with
  | Some _ => Ok (emit [Kill sig] s)
  | None => Throw (TypeError "Cannot read properties of null (reading 'kill')")
  end.

Definition stopFlaskServer (s : Sup) : Exc Sup :=
  if decide (is_Some (flaskProcess s)) then
    s ← kill (flaskProcess s) SIGTERM s;
    Ok (emit [SetTimeout GraceTimer 5000]
          (setGraceTimers (S (graceTimers s)) s))
  else Ok s.

(** The callback of [setTimeout(..., 5000)]. *)
Definition onGraceTimer (s : Sup) : Exc Sup :=
  if decide (is_Some (flaskProcess s)) then
    s ← kill (flaskProcess s) SIGKILL s;
    Ok (setProcess None s)
  else Ok s.

(** ** Events and the supervisor's step function *)

Inductive Event :=
| StdoutData (data : string)
| StderrData (data : string)
| ProcError (message : string)
| ProcClose (code : option Z)
| TimerFired (t : TimerId)
| ProbeDone (who : PollerId) (o : ProbeOutcome)
| StopRequested.

(** An event reaches its handler only when the handler is installed: child
    events need a spawned child, a timer fires only while pending, a request
    calls back only in a state that allows it ([fires]). Anything else
    leaves the state alone. *)
Definition step (s : Sup) (e : Event) : Exc Sup :=
  match e with
  | StdoutData data => Ok (if listening s then onStdout data s else s)
  | StderrData data => Ok (if listening s then onStderr data s else s)
  | ProcError message => Ok (if listening s then onProcError message s else s)
  | ProcClose code => Ok (if listening s then onClose code s else s)
  | TimerFired StartupTimer =>
      Ok (if startupTimer s then onStartupTimer (setStartupTimer false s)
          else s)
  | TimerFired (RetryTimer who) => Ok (onRetryTimer who s)
  | TimerFired GraceTimer =>
      match graceTimers s with
      | O => Ok s
      | S n => onGraceTimer (setGraceTimers n s)
      end
  | ProbeDone who o => Ok (onProbeDone who o s)
  | StopRequested => stopFlaskServer s
  end.

Fixpoint run (s : Sup) (es : list Event) : Exc Sup :=
  match es with
  | [] => Ok s
  | e :: es' => s' ← step s e; run s' es'
  end.

(** ** isPortAvailable (main.js, lines 820-836) *)

(** Which of the two one-shot listeners of the probing server fires. *)
Inductive ListenEvent := ListenError | Listening.

(** The operating system's answer to [server.listen(port, FLASK_HOST)]:
    binding an address another listener holds raises ['error']. *)
Definition netListen (busy : bool) : ListenEvent :=
  if busy then ListenError else Listening.

Definition isPortAvailable (ev : ListenEvent) : bool :=
  match ev with
  | ListenError => false
  | Listening => true
  end.

(** ** createWindow and app.whenReady (main.js, lines 128-189, 890-957) *)

Inductive AppStage :=
| Starting      (* suspended on [await startFlaskServer()] *)
| Windowed      (* past [createWindow()]; ['activate'] is hooked *)
| Exited.       (* [app.quit(); return] *)

Record App := mkApp {
  sup : Sup;
  stage : AppStage;
  readyHooks : nat   (* windows whose once('ready-to-show') is still armed *)
}.

Definition readyChannel : string := "flask-server-ready".

Definition readyPayload (h : Host) : ReadyPayload :=
  mkReady ("http://" +:+ FLASK_HOST (penv h) +:+ ":" +:+ FLASK_PORT (penv h))
          (FLASK_HOST (penv h)) (FLASK_PORT (penv h)).

(** [app.quit()] emits ['before-quit'], whose listener stops the backend. *)
Definition appQuit (a : App) : Exc App :=
  s ← stopFlaskServer (emit [Quit] (sup a));
  Ok (mkApp s Exited (readyHooks a)).

Definition createWindow (a : App) : App :=
  mkApp (emit [CreateWindow] (sup a)) Windowed (S (readyHooks a)).

(** The rest of the [whenReady] callback once [startFlaskServer()] has
    settled: the [try] falls through, or the [catch] asks the user. *)
Definition afterStartup (h : Host) (a : App) : Exc App :=
  match stage a, startup (sup a) with
  | Starting, Fulfilled => Ok (createWindow a)
  | Starting, Rejected _ =>
      let a := mkApp (emit [ShowDialog "Erreur de démarrage Flask"] (sup a))
                     (stage a) (readyHooks a) in
      if failChoice h =? 0 then appQuit a else Ok (createWindow a)
  | _, _ => Ok a
  end.

Definition launch (h : Host) (a : App) : Exc App :=
  afterStartup h (mkApp (startFlaskServer h (sup a)) Starting (readyHooks a)).

Definition whenReady (h : Host) : Exc App :=
  let a := mkApp idle Starting 0 in
  if negb (isPortAvailable (netListen (portBusy h))) then
    let a := mkApp (emit [ShowDialog "Port occupé"] (sup a))
                   (stage a) (readyHooks a) in
    if portChoice h =? 0 then appQuit a else launch h a
  else launch h a.

Inductive AppEvent :=
| Backend (e : Event)
| ReadyToShow
| Activate (openWindows : nat).

Definition appStep (h : Host) (a : App) (e : AppEvent) : Exc App :=
  match e with
  | Backend e =>
      s ← step (sup a) e;
      afterStartup h (mkApp s (stage a) (readyHooks a))
  | ReadyToShow =>
      match stage a, readyHooks a with
      | Windowed, S n =>
          Ok (mkApp (emit [Send readyChannel (readyPayload h)] (sup a))
                    Windowed n)
      | _, _ => Ok a
      end
  | Activate openWindows =>
      match stage a with
      | Windowed => Ok (if (openWindows =? 0)%nat then createWindow a else a)
      | _ => Ok a
      end
  end.

Fixpoint appRun (h : Host) (a : App) (es : list AppEvent) : Exc App :=
  match es with
  | [] => Ok a
  | e :: es' => a' ← appStep h a e; appRun h a' es'
  end.

(** * Vocabulary of the statements *)

(** ** Observations on the action log *)

Definition isSend (a : Action) : bool :=
  match a with Send _ _ => true | _ => false end.

Definition isCreate (a : Action) : bool :=
  match a with CreateWindow => true | _ => false end.

Definition isSpawn (a : Action) : bool :=
  match a with Spawn _ _ _ => true | _ => false end.

Definition isProbe (a : Action) : bool :=
  match a with HttpGet _ => true | _ => false end.

Definition isSigkill (a : Action) : bool :=
  match a with Kill SIGKILL => true | _ => false end.

Definition count (f : Action → bool) (l : list Action) : nat :=
  length (List.filter f l).

(** What the effects of poll [who] leave in the log. *)
Definition effectActions (who : PollerId) (fx : list PollEffect)
  : list Action :=
  flat_map (λ x, match x with
                 | Request => [HttpGet who]
                 | Timer ms => [SetTimeout (RetryTimer who) ms]
                 | Settled _ => []
                 end) fx.

(** Actions a supervisor event handler can perform. *)
Definition isBackendAct (a : Action) : Prop :=
  match a with
  | Kill _ | HttpGet _ | SetTimeout _ _ => True
  | _ => False
  end.

(** ** Classes of events *)

Definition isClose (e : Event) : bool :=
  match e with ProcClose _ => true | _ => false end.

Definition isGraceFire (e : Event) : bool :=
  match e with TimerFired GraceTimer => true | _ => false end.


(** ['activate'] while no window is open. *)
Definition isReopen (e : AppEvent) : bool :=
  match e with Activate O => true | _ => false end.

(** ** Runs of a poll *)

(** Events of the supervisor seen by poll [who]. *)
Definition pollEventOf (who : PollerId) (e : Event) : option PollEvent :=
  match e, who with
  | ProbeDone AfterSignature o, AfterSignature => Some (Fires o)
  | ProbeDone AfterTimeout o, AfterTimeout => Some (Fires o)
  | TimerFired (RetryTimer AfterSignature), AfterSignature => Some RetryFired
  | TimerFired (RetryTimer AfterTimeout), AfterTimeout => Some RetryFired
  | _, _ => None
  end.

Definition pollTrace (who : PollerId) (es : list Event) : list PollEvent :=
  omap (pollEventOf who) es.

(** The runtime can deliver the event now: some request is in a state to
    make that callback, a retry timer is pending. *)
Definition pollEnabled (r : PollerRun) (e : PollEvent) : bool :=
  match e with
  | Fires o => match fires o r with Some _ => true | None => false end
  | RetryFired => negb (timers r =? 0)%nat
  end.

Fixpoint pollFeasible (r : PollerRun) (es : list PollEvent) : bool :=
  match es with
  | [] => true
  | e :: es' => pollEnabled r e && pollFeasible (fst (pollStep r e)) es'
  end.

(** The same for the supervisor: child events need the listeners, a timer
    must be pending, a request callback must be due. *)
Definition enabled (s : Sup) (e : Event) : bool :=
  match e with
  | StdoutData _ | StderrData _ | ProcError _ | ProcClose _ => listening s
  | TimerFired StartupTimer => startupTimer s
  | TimerFired GraceTimer => negb (graceTimers s =? 0)%nat
  | TimerFired (RetryTimer who) =>
      match getPoll who s with
      | Some r => pollEnabled r RetryFired
      | None => false
      end
  | ProbeDone who o =>
      match getPoll who s with
      | Some r => pollEnabled r (Fires o)
      | None => false
      end
  | StopRequested => true
  end.

Fixpoint feasible (s : Sup) (es : list Event) : bool :=
  match es with
  | [] => true
  | e :: es' =>
      enabled s e
      && match step s e with
         | Ok s' => feasible s' es'
         | Throw _ => false
         end
  end.

(** Callbacks that use up budget, and the one that does not. *)
Definition isFailure (e : PollEvent) : bool :=
  match e with
  | Fires (Response statusCode) => negb (statusCode =? 200)
  | Fires _ => true
  | RetryFired => false
  end.

Definition is200 (e : PollEvent) : bool :=
  match e with
  | Fires (Response statusCode) => statusCode =? 200
  | _ => false
  end.

Definition failures (es : list PollEvent) : nat :=
  length (List.filter isFailure es).

(** A ['timeout'] listener runs: the request ends with a second callback
    ([RequestTimeout], then the hang-up error) or has had one already
    ([IdleTimeout], after the response). *)
Definition timesOut (e : PollEvent) : bool :=
  match e with
  | Fires RequestTimeout | Fires IdleTimeout => true
  | _ => false
  end.

Definition isTimeoutListener (e : Event) : bool :=
  match e with
  | ProbeDone _ RequestTimeout | ProbeDone _ IdleTimeout => true
  | _ => false
  end.

(** [k] requests that failed, each followed by the timer it armed. *)
Fixpoint rounds (ms : Z) (k : nat) : list PollEffect :=
  match k with
  | O => []
  | S k' => Request :: Timer ms :: rounds ms k'
  end.

Definition isRequest (x : PollEffect) : bool :=
  match x with Request => true | _ => false end.

(** Requests a poll may have issued once [retries] stands where it does:
    the first one, and one per increment that stayed below the budget. *)
Definition cap (r : PollerRun) : nat :=
  Nat.min (S (retries (vars r))) (Nat.max 1 (maxRetries (vars r))).

(** How a poll with one request at a time stands after [k] failures, and
    the effects [fx] that led there. *)
Definition sequential (n : nat) (d : Z) (k : nat) (got200 : bool)
    (r : PollerRun) (fx : list PollEffect) : Prop :=
  vars r = mkPoller n d k ∧ hungUp r = 0%nat
  ∧ ((settled r = None ∧ got200 = false
      ∧ waiting r = 1%nat ∧ timers r = 0%nat
      ∧ (k < Nat.max 1 n)%nat ∧ fx = rounds d k ++ [Request])
     ∨ (settled r = None ∧ got200 = false
        ∧ waiting r = 0%nat ∧ timers r = 1%nat
        ∧ (0 < k < n)%nat ∧ fx = rounds d k)
     ∨ (settled r = Some Resolve ∧ got200 = true
        ∧ waiting r = 0%nat ∧ timers r = 0%nat
        ∧ (k < Nat.max 1 n)%nat
        ∧ fx = rounds d k ++ [Request; Settled Resolve])
     ∨ (settled r = Some (Reject notResponding) ∧ got200 = false
        ∧ waiting r = 0%nat ∧ timers r = 0%nat
        ∧ k = Nat.max 1 n
        ∧ fx = rounds d (pred k) ++ [Request; Settled (Reject notResponding)])).


(** ** Invariants *)

(** While no signature has been seen and the startup timer is still
    pending, no poller exists and no request has been issued. *)
Definition quietStart (s : Sup) : Prop :=
  serverStarted s = false → startupTimer s = true →
  count isProbe (log s) = 0%nat ∧ sigPoll s = None ∧ toPoll s = None.

(** What holds of the application between two events. *)
Record AppInv (h : Host) (a : App) : Prop := mkAppInv {
  inv_hooks :
    (count isSend (log (sup a)) + readyHooks a
     = count isCreate (log (sup a)))%nat;
  inv_nowin : stage a ≠ Windowed → count isCreate (log (sup a)) = 0%nat;
  inv_win :
    stage a = Windowed →
    startup (sup a) = Fulfilled
    ∨ ∃ r, startup (sup a) = Rejected r ∧ failChoice h ≠ 0;
  inv_starting : stage a = Starting → startup (sup a) = Pending;
  inv_payload :
    Forall (λ x, isSend x = true → x = Send readyChannel (readyPayload h))
           (log (sup a))
}.

(** ** Sample inputs *)

(** [contains c s]: the character [c] occurs in [s]. *)
Fixpoint contains (c : ascii) (s : string) : bool :=
  match s with
  | "" => false
  | String c' s' => Ascii.eqb c' c || contains c s'
  end.

Definition nl : string := String "010" "".

(** The file [A=1], [# comment], blank line, [B=2=3]. *)
Definition sample_env : string :=
  "A=1" +:+ nl +:+ "# comment" +:+ nl +:+ nl +:+ "B=2=3".

(** A host on which the backend can be launched: a free port, a working
    interpreter, the script in place; the user would pick "Quitter" in the
    port box and "Continuer sans serveur" in the startup-error box. *)
Definition okHost : Host :=
  mkHost false (λ _, true) true ∅ None false false 0 1.

(** A host whose port is taken and whose user answers the "Port occupé"
    box with its second button. *)
Definition busyRetryHost : Host :=
  mkHost false (λ _, true) true ∅ None false true 1 1.


(** * Vocabulary of the further properties *)

(** A string is clean when [trim] leaves it alone. *)
Definition trimmed (s : string) : Prop := JsString.trim s = s.

(** Empty, or starting with a character [trim] would keep. *)
Definition headKept (s : string) : Prop :=
  match s with
  | "" => True
  | String c _ => JsString.is_white c = false
  end.

(** ['get-flask-url'] (main.js, lines 843-845). *)
Definition getFlaskUrl (penv : gmap string string) : string :=
  "http://" +:+ FLASK_HOST penv +:+ ":" +:+ FLASK_PORT penv.


Definition isProbeOf (who : PollerId) (a : Action) : bool :=
  match a, who with
  | HttpGet AfterSignature, AfterSignature => true
  | HttpGet AfterTimeout, AfterTimeout => true
  | _, _ => false
  end.

(** The attempt count passed at each call site of [checkFlaskServer]. *)
Definition pollBudget (who : PollerId) : nat :=
  match who with
  | AfterSignature => 10
  | AfterTimeout => 5
  end.

(** How the requests issued so far relate to a poll's closure: issued
    requests and pending retry timers add up to [cap]. *)
Definition pollAccount (who : PollerId) (s : Sup) : Prop :=
  match getPoll who s with
  | None => count (isProbeOf who) (log s) = 0%nat
  | Some r =>
      maxRetries (vars r) = pollBudget who
      ∧ (count (isProbeOf who) (log s) + timers r = cap r)%nat
  end.

Definition pollsAccounted (s : Sup) : Prop :=
  pollAccount AfterSignature s ∧ pollAccount AfterTimeout s
  ∧ (serverStarted s = false → sigPoll s = None)
  ∧ (startupTimer s = true → toPoll s = None).

Definition isSigterm (a : Action) : bool :=
  match a with Kill SIGTERM => true | _ => false end.

Definition isKill (a : Action) : bool :=
  match a with Kill _ => true | _ => false end.

Definition isStop (e : Event) : bool :=
  match e with StopRequested => true | _ => false end.

Definition isAppStop (e : AppEvent) : bool :=
  match e with Backend StopRequested => true | _ => false end.

(** Signals sent against timers armed. *)
Definition killsAccounted (s : Sup) : Prop :=
  (count isSigkill (log s) + graceTimers s ≤ count isSigterm (log s))%nat
  ∧ (count isSigkill (log s) ≤ 1)%nat
  ∧ (count isSigkill (log s) = 1%nat → flaskProcess s = None).

(** Effect of that poller's verdict on the startup promise. *)
Definition signatureSettles (v : option Verdict) (p : Promise) : Promise :=
  match v with
  | Some Resolve => resolve p
  | Some (Reject err) => reject err p
  | None => p
  end.

(** The chunks received on standard output, concatenated in order. *)
Fixpoint stdoutOf (es : list Event) : string :=
  match es with
  | [] => ""
  | StdoutData d :: es' => d +:+ stdoutOf es'
  | _ :: es' => stdoutOf es'
  end.

(** [startFlaskServer] gets as far as [spawn]. *)
Definition launches (h : Host) : bool :=
  match getPythonPath (win32 h) (works h) with
  | Some _ => scriptExists h
  | None => false
  end.

(** [app.whenReady] gets as far as [startFlaskServer()]. *)
Definition reachesStart (h : Host) : bool :=
  negb (portBusy h) || negb (portChoice h =? 0).

(** * Properties *)

(** ** String primitives *)

Section StringFacts.

Import JsString.

Lemma split_cons sep s : ∃ h t, split sep s = h :: t.
Proof.
  destruct s as [|c s]; simpl; [by eauto|].
  destruct (Ascii.eqb c sep); [by eauto|].
  destruct (split sep s); eauto.
Qed.

Lemma append_String c a b : String c a +:+ b = String c (a +:+ b).
Proof. reflexivity. Qed.

Lemma append_empty_l b : "" +:+ b = b.
Proof. reflexivity. Qed.

Lemma startsWith_char a c s :
  startsWith (String a "") (String c s) = Ascii.eqb a c.
Proof. cbn [startsWith]. apply andb_true_r. Qed.

Lemma split_app_sep sep a b :
  split sep (a +:+ String sep b) = split sep a ++ split sep b.
Proof.
  induction a as [|c a IH].
  - rewrite append_empty_l. simpl. by rewrite Ascii.eqb_refl.
  - rewrite append_String. simpl. rewrite IH.
    destruct (Ascii.eqb c sep); [done|].
    destruct (split_cons sep a) as (h & t & ->). done.
Qed.

Lemma split_absent sep s : contains sep s = false → split sep s = [s].
Proof.
  induction s as [|c s IH]; simpl; [done|].
  intros [Hc Hs]%orb_false_iff. rewrite Hc, (IH Hs). done.
Qed.

Lemma join_String sep c h t :
  join sep (String c h :: t) = String c (join sep (h :: t)).
Proof. destruct t; reflexivity. Qed.

Lemma join_split sep s : join (String sep "") (split sep s) = s.
Proof.
  induction s as [|c s IH]; simpl; [done|].
  destruct (Ascii.eqb c sep) eqn:E.
  - apply Ascii.eqb_eq in E as ->.
    destruct (split_cons sep s) as (h & t & Hs). rewrite Hs in *.
    change (join (String sep "") ("" :: h :: t))
      with (String sep (join (String sep "") (h :: t))).
    by rewrite IH.
  - destruct (split_cons sep s) as (h & t & Hs). rewrite Hs in *.
    by rewrite join_String, IH.
Qed.

(** Lines without a line feed survive [join] then [split]. *)
Lemma split_join_lines l ls :
  Forall (λ x, contains "010" x = false) (l :: ls) →
  split "010" (join nl (l :: ls)) = l :: ls.
Proof.
  revert l. induction ls as [|l' ls IH]; intros l H.
  - simpl. apply split_absent. by inversion H.
  - change (join nl (l :: l' :: ls)) with (l +:+ String "010" (join nl (l' :: ls))).
    rewrite split_app_sep. inversion H as [|?? Hl Hrest]; subst.
    rewrite (split_absent _ _ Hl), (IH _ Hrest). done.
Qed.

End StringFacts.

(** ** loadEnvFile *)

Lemma parseEnvLine_blank line :
  JsString.trim line = "" → parseEnvLine line = None.
Proof. unfold parseEnvLine. by intros ->. Qed.

Lemma parseEnvLine_comment line :
  JsString.startsWith "#" (JsString.trim line) = true →
  parseEnvLine line = None.
Proof. unfold parseEnvLine. intros ->. by rewrite andb_false_r. Qed.

(** Trimming keeps a leading [#]. *)
Lemma trim_keeps_hash line :
  JsString.startsWith "#" line = true →
  JsString.startsWith "#" (JsString.trim line) = true.
Proof.
  destruct line as [|c rest]; [done|].
  rewrite startsWith_char. intros <-%Ascii.eqb_eq.
  by unfold JsString.trim.
Qed.

Lemma parseEnvLine_no_equals line :
  contains "=" (JsString.trim line) = false → parseEnvLine line = None.
Proof.
  unfold parseEnvLine. intros H. rewrite (split_absent _ _ H). simpl.
  by rewrite andb_false_r; destruct (_ && _).
Qed.

Lemma parseEnvLine_first_equals line key rest :
  JsString.trim line = key +:+ "=" +:+ rest →
  contains "=" key = false →
  key ≠ "" →
  JsString.startsWith "#" key = false →
  parseEnvLine line = Some (JsString.trim key, JsString.trim rest).
Proof.
  intros Ht Hk Hne Hc. unfold parseEnvLine. rewrite Ht.
  destruct key as [|c key]; [done|].
  assert (JsString.startsWith "#" (String c key +:+ "=" +:+ rest) = false) as ->.
  { rewrite append_String. by rewrite startsWith_char in *. }
  change (String c key +:+ "=" +:+ rest)
    with (String c key +:+ String "=" rest) at 2.
  rewrite split_app_sep, (split_absent _ _ Hk).
  destruct (split_cons "=" rest) as (h & t & Hs).
  pose proof (join_split "=" rest) as Hj. rewrite Hs in *. simpl app.
  cbn [length]. rewrite Hj. reflexivity.
Qed.

Lemma loadEnvLines_snoc lines line :
  loadEnvLines (lines ++ [line]) = envLineStep (loadEnvLines lines) line.
Proof. unfold loadEnvLines. by rewrite foldl_snoc. Qed.

Lemma setProperty_ordinary key value obj :
  key ≠ "__proto__" → setProperty key value obj = <[key := value]> obj.
Proof.
  intros Hne. unfold setProperty.
  by destruct (String.eqb_spec key "__proto__").
Qed.

(** An assignment changes at most the property it names. *)
Lemma setProperty_other key value obj k :
  key ≠ k → setProperty key value obj !! k = obj !! k.
Proof.
  intros Hne. unfold setProperty.
  destruct (String.eqb key "__proto__"); [done|].
  by apply lookup_insert_ne.
Qed.

Lemma foldl_envLineStep_skip m later k :
  Forall (λ l, ∀ v, parseEnvLine l ≠ Some (k, v)) later →
  foldl envLineStep m later !! k = m !! k.
Proof.
  revert m. induction later as [|l later IH]; intros m H; [done|].
  inversion H as [|?? Hl Hrest]; subst. simpl. rewrite (IH _ Hrest).
  unfold envLineStep. destruct (parseEnvLine l) as [[k' v']|] eqn:E; [|done].
  apply setProperty_other. intros ->. by eapply Hl.
Qed.

Lemma loadEnvLines_last_wins earlier line later k v :
  k ≠ "__proto__" →
  parseEnvLine line = Some (k, v) →
  Forall (λ l, ∀ v', parseEnvLine l ≠ Some (k, v')) later →
  loadEnvLines (earlier ++ line :: later) !! k = Some v.
Proof.
  intros Hk Hl Hlater. unfold loadEnvLines. rewrite foldl_app. simpl.
  rewrite (foldl_envLineStep_skip _ _ _ Hlater).
  unfold envLineStep at 1. rewrite Hl, (setProperty_ordinary _ _ _ Hk).
  apply lookup_insert_eq.
Qed.

(** No line ever gives the object an own property [__proto__]. *)
Lemma foldl_envLineStep_proto m lines :
  foldl envLineStep m lines !! "__proto__" = m !! "__proto__".
Proof.
  revert m. induction lines as [|l lines IH]; intros m; [done|].
  simpl. rewrite IH. unfold envLineStep.
  destruct (parseEnvLine l) as [[k v]|]; [|done].
  destruct (decide (k = "__proto__")) as [->|Hne]; [done|].
  by apply setProperty_other.
Qed.

Lemma loadEnvFile_proto file : loadEnvFile file !! "__proto__" = None.
Proof.
  destruct file as [content|]; simpl; [|done].
  unfold loadEnvLines. by rewrite foldl_envLineStep_proto.
Qed.

Lemma loadEnvLines_ignored earlier line later :
  parseEnvLine line = None →
  loadEnvLines (earlier ++ line :: later) = loadEnvLines (earlier ++ later).
Proof.
  intros Hl. unfold loadEnvLines. rewrite !foldl_app. simpl.
  unfold envLineStep at 2. by rewrite Hl.
Qed.

Lemma loadEnvFile_lines ls :
  Forall (λ x, contains "010" x = false) ls →
  loadEnvFile (Some (JsString.join nl ls)) = loadEnvLines ls.
Proof.
  destruct ls as [|l ls]; [done|].
  intros H. unfold loadEnvFile. by rewrite split_join_lines.
Qed.

(** C7. On the sample file [A=1], [# comment], a blank line, [B=2=3] the
    overlay parser yields exactly [{A: "1", B: "2=3"}], and a later [A=9]
    turns [A] into ["9"]. For every file a line splits at its first [=]
    only, blank lines and lines starting with [#] contribute nothing, and of
    several lines binding the same ordinary key the last one determines the
    value. The key [__proto__] is where the code departs from this: the line
    [__proto__=x] parses like any other, yet the assignment stores nothing,
    so the file yields the empty overlay; no file ever binds that key. *)
Theorem loadEnvFile_overlay :
  loadEnvFile (Some sample_env) = {[ "A" := "1"; "B" := "2=3" ]}
  ∧ loadEnvFile (Some (sample_env +:+ nl +:+ "A=9"))
    = {[ "A" := "9"; "B" := "2=3" ]}
  ∧ (∀ line key rest,
       JsString.trim line = key +:+ "=" +:+ rest →
       contains "=" key = false →
       key ≠ "" →
       JsString.startsWith "#" key = false →
       parseEnvLine line = Some (JsString.trim key, JsString.trim rest))
  ∧ (∀ earlier line later,
       Forall (λ x, contains "010" x = false) (earlier ++ line :: later) →
       JsString.trim line = ""
       ∨ JsString.startsWith "#" line = true
       ∨ JsString.startsWith "#" (JsString.trim line) = true →
       loadEnvFile (Some (JsString.join nl (earlier ++ line :: later)))
       = loadEnvFile (Some (JsString.join nl (earlier ++ later))))
  ∧ (∀ earlier line later k v,
       Forall (λ x, contains "010" x = false) (earlier ++ line :: later) →
       k ≠ "__proto__" →
       parseEnvLine line = Some (k, v) →
       Forall (λ l, ∀ v', parseEnvLine l ≠ Some (k, v')) later →
       loadEnvFile (Some (JsString.join nl (earlier ++ line :: later))) !! k
       = Some v)
  ∧ parseEnvLine "__proto__=x" = Some ("__proto__", "x")
  ∧ loadEnvFile (Some "__proto__=x") = ∅
  ∧ loadEnvFile (Some ("A=1" +:+ nl +:+ "__proto__=x" +:+ nl +:+ "__proto__=y"))
    = {[ "A" := "1" ]}
  ∧ (∀ file, loadEnvFile file !! "__proto__" = None).
Proof.
  split; [by vm_compute|]. split; [by vm_compute|].
  split; [exact parseEnvLine_first_equals|]. split; [|split].
  - intros earlier line later Hlf Hskip.
    apply Forall_app in Hlf as Hparts. destruct Hparts as [He Hl].
    rewrite !loadEnvFile_lines;
      [|apply Forall_app; split; [done|by inversion Hl]|done].
    apply loadEnvLines_ignored.
    destruct Hskip as [?|[?%trim_keeps_hash|?]];
      [by apply parseEnvLine_blank|by apply parseEnvLine_comment..].
  - intros earlier line later k v Hlf Hk Hl Hlater.
    rewrite loadEnvFile_lines by done.
    by apply loadEnvLines_last_wins.
  - split; [by vm_compute|]. split; [by vm_compute|].
    split; [by vm_compute|]. exact loadEnvFile_proto.
Qed.

(** ** The child environment *)

Lemma flaskEnv_lookup penv envVars isDev k :
  flaskEnv penv envVars isDev !! k
  = layered (runtimeOverrides penv isDev) envVars penv k.
Proof.
  unfold flaskEnv, runtimeOverrides, layered, spread.
  rewrite (right_id_L ∅ (∪)).
  destruct (decide (k = "PYTHONUNBUFFERED")) as [->|]; [by simplify_map_eq|].
  destruct (decide (k = "FLASK_DEBUG")) as [->|]; [by simplify_map_eq|].
  destruct (decide (k = "FLASK_HOST")) as [->|]; [by simplify_map_eq|].
  destruct (decide (k = "FLASK_PORT")) as [->|]; [by simplify_map_eq|].
  rewrite !lookup_insert_ne by done.
  rewrite ?lookup_singleton_ne, ?lookup_empty by done.
  rewrite lookup_union.
  by destruct (envVars !! k), (penv !! k).
Qed.

Lemma startFlaskServer_spawn h s cmd args env :
  Spawn cmd args env ∈ log (startFlaskServer h s) →
  Spawn cmd args env ∈ log s
  ∨ env = flaskEnv (penv h) (loadEnvFile (envFile h)) (isDev h).
Proof.
  unfold startFlaskServer.
  destruct (getPythonPath _ _); [|by left].
  destruct (scriptExists h); simpl; [|by left].
  rewrite elem_of_app, !elem_of_cons, elem_of_nil.
  intros [?|[[= -> -> ->]|[[=]|[]]]]; [by left|by right].
Qed.

(** When an interpreter is found and the script is in place,
    [startFlaskServer] spawns: one process, with the merged environment. *)
Lemma startFlaskServer_spawns h s :
  launches h = true →
  ∃ cmd,
    getPythonPath (win32 h) (works h) = Some cmd
    ∧ log (startFlaskServer h s)
      = log s ++ [Spawn cmd [scriptPath]
                    (flaskEnv (penv h) (loadEnvFile (envFile h)) (isDev h));
                  SetTimeout StartupTimer 15000]
    ∧ flaskProcess (startFlaskServer h s) = Some TheChild.
Proof.
  unfold launches, startFlaskServer.
  destruct (getPythonPath _ _) as [cmd|]; [|done].
  intros ->. by exists cmd.
Qed.

(** C8. The environment handed to the spawned backend is layered
    process environment < [.env] overlay < explicit runtime values.
    Whenever an interpreter is found and the script exists, a process is
    spawned and the environment it is given is [flaskEnv]; no process is
    ever spawned with another one. In [flaskEnv] a key is looked up in the
    explicit values first, then in the overlay, then in the inherited
    environment, so the later layer wins wherever layers share a key. *)
Theorem flaskEnv_override_order :
  (∀ h, launches h = true →
        ∃ cmd,
          getPythonPath (win32 h) (works h) = Some cmd
          ∧ log (startFlaskServer h idle)
            = [Spawn cmd [scriptPath]
                 (flaskEnv (penv h) (loadEnvFile (envFile h)) (isDev h));
               SetTimeout StartupTimer 15000])
  ∧ (∀ h cmd args env,
       Spawn cmd args env ∈ log (startFlaskServer h idle) →
       env = flaskEnv (penv h) (loadEnvFile (envFile h)) (isDev h))
  ∧ (∀ penv envVars isDev k,
       flaskEnv penv envVars isDev !! k
       = layered (runtimeOverrides penv isDev) envVars penv k)
  ∧ (∀ penv envVars isDev k v,
       runtimeOverrides penv isDev !! k = Some v →
       flaskEnv penv envVars isDev !! k = Some v)
  ∧ (∀ penv envVars isDev k v,
       runtimeOverrides penv isDev !! k = None →
       envVars !! k = Some v →
       flaskEnv penv envVars isDev !! k = Some v)
  ∧ (∀ penv envVars isDev k v,
       runtimeOverrides penv isDev !! k = None →
       envVars !! k = None →
       penv !! k = Some v →
       flaskEnv penv envVars isDev !! k = Some v)
  ∧ (∀ penv isDev,
       dom (runtimeOverrides penv isDev)
       = {[ "FLASK_PORT"; "FLASK_HOST"; "FLASK_DEBUG"; "PYTHONUNBUFFERED" ]}).
Proof.
  split.
  { intros h Hl. destruct (startFlaskServer_spawns h idle Hl)
      as (cmd & Hcmd & Hlog & _). by exists cmd. }
  split.
  { intros h cmd args env [H|H]%startFlaskServer_spawn; [|done].
    by apply elem_of_nil in H. }
  split; [exact flaskEnv_lookup|].
  split; [|split; [|split]].
  - intros * H. rewrite flaskEnv_lookup. unfold layered. by rewrite H.
  - intros * H1 H2. rewrite flaskEnv_lookup. unfold layered. by rewrite H1, H2.
  - intros * H1 H2 H3. rewrite flaskEnv_lookup. unfold layered.
    by rewrite H1, H2, H3.
  - intros. unfold runtimeOverrides.
    rewrite !dom_insert_L, dom_singleton_L. set_solver.
Qed.

Lemma flaskEnv_override_order_witness :
  (∃ cmd, log (startFlaskServer okHost idle)
          = [Spawn cmd [scriptPath] (flaskEnv ∅ ∅ false);
             SetTimeout StartupTimer 15000])
  ∧ flaskEnv {[ "FLASK_PORT" := "6000"; "SHARED" := "process" ]}
             (loadEnvFile (Some ("SHARED=file" +:+ nl +:+ "FLASK_PORT=7000")))
             true !! "SHARED" = Some "file"
  ∧ flaskEnv {[ "FLASK_PORT" := "6000"; "SHARED" := "process" ]}
             (loadEnvFile (Some ("SHARED=file" +:+ nl +:+ "FLASK_PORT=7000")))
             true !! "FLASK_PORT" = Some "6000".
Proof.
  destruct flaskEnv_override_order as (Hspawn & _ & _ & Htop & Hmid & _).
  split; [|split].
  - destruct (Hspawn okHost eq_refl) as (cmd & _ & Hlog). by exists cmd.
  - apply Hmid; by vm_compute.
  - apply Htop. by vm_compute.
Defined.

(** ** checkFlaskServer *)

Ltac arith_bools :=
  repeat match goal with
         | H : (_ <? _)%nat = true |- _ => apply Nat.ltb_lt in H
         | H : (_ <? _)%nat = false |- _ => apply Nat.ltb_ge in H
         | H : (_ =? _)%Z = true |- _ => apply Z.eqb_eq in H
         | H : (_ =? _)%Z = false |- _ => apply Z.eqb_neq in H
         end.

(** Unfolds a callback down to the closure and splits on every test. *)
Ltac listener_cases :=
  unfold onListener, fires, onProbe, retryCheck, destroy, settle,
    onRetry, check in *;
  repeat (simplify_eq/=; case_match); simplify_eq/=; arith_bools;
  simplify_eq/=.

Lemma count_effects_app f (l1 l2 : list PollEffect) :
  length (List.filter f (l1 ++ l2))
  = (length (List.filter f l1) + length (List.filter f l2))%nat.
Proof. by rewrite List.filter_app, length_app. Qed.

(** Requests issued and timers pending always add up to [cap]: every
    request beyond the first comes from a timer, and a timer is armed only
    by an increment of [retries] that stays below the budget. *)
Lemma pollStep_cap r e :
  (timers (fst (pollStep r e))
   + length (List.filter isRequest (snd (pollStep r e))) + cap r
   = timers r + cap (fst (pollStep r e)))%nat
  ∧ maxRetries (vars (fst (pollStep r e))) = maxRetries (vars r)
  ∧ retryDelay (vars (fst (pollStep r e))) = retryDelay (vars r)
  ∧ (retries (vars r) ≤ retries (vars (fst (pollStep r e))))%nat.
Proof.
  unfold cap.
  destruct r as [[n d k] st w a h t], e as [[c| | |]|]; simpl;
    listener_cases; repeat split; lia.
Qed.

Lemma rounds_snoc d k : rounds d (S k) = rounds d k ++ [Request; Timer d].
Proof. induction k as [|k IH]; [done|]. simpl in *. by rewrite IH. Qed.

Lemma sequential_init n d :
  sequential n d 0 false (fst (checkFlaskServer n d))
             (snd (checkFlaskServer n d)).
Proof.
  unfold sequential. simpl. split; [done|]. split; [done|].
  left. repeat split; lia.
Qed.

(** With one callback per request, a poll has one request or one timer
    outstanding at any time, and its effects come in rounds. *)
Lemma sequential_step n d k g r fx e :
  sequential n d k g r fx →
  pollEnabled r e = true →
  timesOut e = false →
  sequential n d (k + if isFailure e then 1 else 0) (g || is200 e)
             (fst (pollStep r e)) (fx ++ snd (pollStep r e)).
Proof.
  unfold sequential. intros (Hv & Hh & Hcase) He Ht.
  destruct r as [p st w a h t]; simpl in *. subst p h.
  destruct e as [[c| | |]|]; try discriminate Ht; simpl in He |- *;
    destruct Hcase as [H|[H|[H|H]]];
    destruct H as (Hs & Hg & Hw & Htm & Hk & Hfx); subst;
    try discriminate He; listener_cases;
    rewrite ?Nat.add_0_r, ?Nat.add_1_r, ?orb_true_r, ?orb_false_r;
    (split; [done|]); (split; [done|]).
  all: first
    [ left; repeat split; try done; try lia; by rewrite <- ?app_assoc
    | right; left; repeat split; try done; try lia;
      by rewrite rounds_snoc, <- app_assoc
    | right; right; left; repeat split; try done; try lia;
      by rewrite <- app_assoc
    | right; right; right; repeat split; try done; try lia;
      by rewrite <- app_assoc ].
Qed.

(** Where a poll stands does not depend on the effects recorded so far. *)
Lemma pollRun_state tr : ∀ r fx fx',
  fst (pollRun (r, fx) tr) = fst (pollRun (r, fx') tr).
Proof.
  induction tr as [|e tr IH]; intros r fx fx'; [done|]. simpl. apply IH.
Qed.

Lemma sequential_run n d es : ∀ k g r fx,
  sequential n d k g r fx →
  pollFeasible r es = true →
  forallb (λ e, negb (timesOut e)) es = true →
  sequential n d (k + failures es) (g || existsb is200 es)
             (fst (pollRun (r, fx) es)) (snd (pollRun (r, fx) es)).
Proof.
  induction es as [|e es IH]; intros k g r fx Hseq Hfe Hto.
  - unfold failures. simpl. by rewrite Nat.add_0_r, orb_false_r.
  - simpl in Hfe, Hto.
    apply andb_true_iff in Hfe as [He Hfe].
    apply andb_true_iff in Hto as [Ht Hto]. apply negb_true_iff in Ht.
    pose proof (sequential_step _ _ _ _ _ _ _ Hseq He Ht) as Hstep.
    specialize (IH _ _ _ _ Hstep Hfe Hto).
    cbn [pollRun fst snd].
    replace (k + failures (e :: es))%nat
      with (k + (if isFailure e then 1 else 0) + failures es)%nat
      by (unfold failures; simpl; destruct (isFailure e); simpl; lia).
    replace (g || existsb is200 (e :: es))
      with (g || is200 e || existsb is200 es)
      by (simpl; by rewrite orb_assoc).
    exact IH.
Qed.

(** C2. On a request that gets no answer within 2000 ms, one attempt costs
    two units of the budget: the ['timeout'] listener destroys the request
    and calls [retryCheck], and the hang-up the destruction causes calls it
    again through the ['error'] listener. With a budget of 2 the poll is
    rejected after a single request, and the retry timer armed in between
    still sends a second one afterwards. Likewise a response with status 200
    that is left unread on a connection kept open is followed by a timeout,
    which arms a timer and sends another request after the poll has
    resolved. *)
Theorem checkFlaskServer_timeout_counts_twice :
  pollFeasible (fst (checkFlaskServer 2 1000))
    [Fires RequestTimeout; Fires RequestError; RetryFired] = true
  ∧ pollRun (checkFlaskServer 2 1000) [Fires RequestTimeout; Fires RequestError]
    = (mkRun (mkPoller 2 1000 2) (Some (Reject notResponding)) 0 0 0 1,
       [Request; Timer 1000; Settled (Reject notResponding)])
  ∧ snd (pollRun (checkFlaskServer 2 1000)
           [Fires RequestTimeout; Fires RequestError; RetryFired])
    = [Request; Timer 1000; Settled (Reject notResponding); Request]
  ∧ pollFeasible (fst (checkFlaskServer 2 1000))
      [Fires (Response 200); Fires IdleTimeout; RetryFired] = true
  ∧ snd (pollRun (checkFlaskServer 2 1000)
           [Fires (Response 200); Fires IdleTimeout; RetryFired])
    = [Request; Settled Resolve; Timer 1000; Request].
Proof. repeat split; reflexivity. Qed.

(** C10. A callback resolves the poll exactly when it is the response
    callback, the status is 200 and the promise is still pending; every
    other callback that runs adds one to [retries], statuses 204 and 301
    like the rest, and a 200 adds none. But one failed attempt is not always
    one callback: the response callback leaves the body unread, so on a
    connection the server keeps open the request times out 2000 ms later
    and its ['timeout'] listener calls [retryCheck] a second time. One
    request answered 301 leaves [retries] at 2 with two timers armed. *)
Theorem unread_response_counts_twice :
  (∀ o r, Settled Resolve ∈ snd (onListener o r)
          ↔ o = Response 200 ∧ is_Some (fires o r) ∧ settled r = None)
  ∧ (∀ o r, is_Some (fires o r) →
            retries (vars (fst (onListener o r)))
            = if decide (o = Response 200) then retries (vars r)
              else S (retries (vars r)))
  ∧ pollFeasible (fst (checkFlaskServer 10 1000))
      [Fires (Response 301); Fires IdleTimeout] = true
  ∧ pollRun (checkFlaskServer 10 1000) [Fires (Response 301)]
    = (mkRun (mkPoller 10 1000 1) None 0 1 0 1, [Request; Timer 1000])
  ∧ pollRun (checkFlaskServer 10 1000) [Fires (Response 301); Fires IdleTimeout]
    = (mkRun (mkPoller 10 1000 2) None 0 0 0 2,
       [Request; Timer 1000; Timer 1000])
  ∧ pollRun (checkFlaskServer 10 1000) [Fires (Response 204); Fires IdleTimeout]
    = (mkRun (mkPoller 10 1000 2) None 0 0 0 2,
       [Request; Timer 1000; Timer 1000]).
Proof.
  split; [|split; [|repeat split; reflexivity]].
  - intros o [[n d k] st w a h t].
    destruct o as [c| | |]; listener_cases;
      rewrite ?elem_of_cons, ?elem_of_nil;
      (split;
       [intros Hin; repeat (destruct Hin as [Hin|Hin]; simplify_eq);
        first [done | by repeat split; eauto]
       |intros (E1 & [? E2] & E3); simplify_eq; auto]).
  - intros o [[n d k] st w a h t] [r1 Hr1].
    destruct o as [c| | |]; listener_cases; first [done | congruence].
Qed.

(** ** The supervisor's step function *)

Lemma count_app f l1 l2 : count f (l1 ++ l2) = (count f l1 + count f l2)%nat.
Proof. unfold count. by rewrite List.filter_app, length_app. Qed.

(** Unfolds one step down to its handler and splits on every test. *)
Ltac step_cases :=
  repeat match goal with who : PollerId |- _ => destruct who end;
  unfold step, stopFlaskServer, onGraceTimer, kill, onStdout, onStderr,
    onProcError, onClose, onStartupTimer, onProbeDone, onRetryTimer,
    withPoll, startPoll, checkFlaskServer, mbind, Exc_bind, bindExc in *;
  unfold onListener, fires, onProbe, retryCheck, destroy, settle,
    onRetry, check in *;
  unfold perform, performOne, pollSettled in *;
  repeat (simplify_eq/=; case_match);
  simplify_eq/=.

(** Carrying out a poll's effects appends to the log and may settle the
    startup promise; it touches nothing else, except that a resolved
    fallback poll sets [serverStarted]. *)
Lemma perform_frame who fx : ∀ s,
  flaskProcess (perform who fx s) = flaskProcess s
  ∧ listening (perform who fx s) = listening s
  ∧ startupOutput (perform who fx s) = startupOutput s
  ∧ startupTimer (perform who fx s) = startupTimer s
  ∧ graceTimers (perform who fx s) = graceTimers s
  ∧ sigPoll (perform who fx s) = sigPoll s
  ∧ toPoll (perform who fx s) = toPoll s
  ∧ log (perform who fx s) = log s ++ effectActions who fx
  ∧ (serverStarted (perform who fx s) = false → serverStarted s = false).
Proof.
  unfold perform. induction fx as [|x fx IH]; intros s.
  - simpl. by rewrite app_nil_r.
  - cbn [foldl].
    destruct (IH (performOne who s x))
      as (-> & -> & -> & -> & -> & -> & -> & -> & Hs).
    destruct x as [|ms|[|m]], who; simpl in *;
      rewrite <- ?app_assoc; repeat split; try done; intros H;
      by specialize (Hs H).
Qed.

Lemma withPoll_cases who f s :
  (getPoll who s = None ∧ withPoll who f s = s)
  ∨ (∃ r, getPoll who s = Some r
       ∧ getPoll who (withPoll who f s) = Some (fst (f r))
       ∧ (∀ other, other ≠ who →
                   getPoll other (withPoll who f s) = getPoll other s)
       ∧ flaskProcess (withPoll who f s) = flaskProcess s
       ∧ listening (withPoll who f s) = listening s
       ∧ startupOutput (withPoll who f s) = startupOutput s
       ∧ startupTimer (withPoll who f s) = startupTimer s
       ∧ graceTimers (withPoll who f s) = graceTimers s
       ∧ log (withPoll who f s) = log s ++ effectActions who (snd (f r))
       ∧ (serverStarted (withPoll who f s) = false →
          serverStarted s = false)).
Proof.
  unfold withPoll. destruct (getPoll who s) as [r|] eqn:E; [right|by left].
  exists r. split; [done|].
  destruct (perform_frame who (snd (f r)) (setPoll who (Some (fst (f r))) s))
    as (-> & -> & -> & -> & -> & Hsig & Hto & -> & Hs).
  destruct who; simpl in *; rewrite ?Hsig, ?Hto;
    (split; [done|]); (split; [by intros []|]); by repeat split.
Qed.

Lemma count_effectActions who other fx :
  count (isProbeOf other) (effectActions who fx)
  = if decide (other = who) then length (List.filter isRequest fx)
    else 0%nat.
Proof.
  unfold count. induction fx as [|x fx IH]; [by destruct (decide _)|].
  cbn [effectActions flat_map]. fold (effectActions who fx).
  rewrite List.filter_app, length_app, IH.
  destruct x, who, other; simpl; by repeat case_decide.
Qed.

Lemma step_total s e : ∃ s', step s e = Ok s'.
Proof.
  destruct e as [d|d|m|c|[|who|]|who o|]; step_cases; eauto;
    match goal with H : ¬ is_Some _ |- _ => destruct H; eauto end.
Qed.

Lemma run_total s es : ∃ s', run s es = Ok s'.
Proof.
  revert s. induction es as [|e es IH]; intros s; simpl; [by eauto|].
  destruct (step_total s e) as [s' ->]. apply IH.
Qed.

(** Outside the grace timer's callback no handler sends SIGKILL, and only the
    ['close'] listener clears [flaskProcess]. *)
Lemma step_no_grace s e s' :
  isGraceFire e = false →
  step s e = Ok s' →
  count isSigkill (log s') = count isSigkill (log s)
  ∧ listening s' = listening s
  ∧ flaskProcess s' = (if isClose e && listening s then None else flaskProcess s)
  ∧ (graceTimers s ≤ graceTimers s')%nat.
Proof.
  intros Hg H.
  destruct e as [d|d|m|c|[|who|]|who o|]; try discriminate Hg; step_cases;
    rewrite ?count_app; unfold count; simpl; repeat split; try done; try lia.
Qed.

Lemma run_no_grace es : ∀ s s',
  forallb (λ e, negb (isGraceFire e)) es = true →
  listening s = true →
  run s es = Ok s' →
  count isSigkill (log s') = count isSigkill (log s)
  ∧ listening s' = true
  ∧ flaskProcess s' = (if existsb isClose es then None else flaskProcess s)
  ∧ (graceTimers s ≤ graceTimers s')%nat.
Proof.
  induction es as [|e es IH]; intros s s' Hes Hl Hrun; simpl in *.
  - injection Hrun as <-. by repeat split.
  - apply andb_true_iff in Hes as [He Hes]. apply negb_true_iff in He.
    destruct (step_total s e) as [s1 H1]. rewrite H1 in Hrun.
    destruct (step_no_grace _ _ _ He H1) as (Hc & Hl1 & Hp & Hg).
    rewrite Hl in *. rewrite andb_true_r in Hp.
    destruct (IH s1 s' Hes Hl1 Hrun) as (Hc' & Hl' & Hp' & Hg').
    repeat split; [congruence|done| |lia].
    rewrite Hp', Hp. by destruct (isClose e), (existsb isClose es).
Qed.

(** Once [flaskProcess] is null nothing signals the child any more. *)
Lemma step_dead s e s' :
  flaskProcess s = None →
  step s e = Ok s' →
  flaskProcess s' = None
  ∧ count isSigkill (log s') = count isSigkill (log s).
Proof.
  intros Hp H.
  destruct e as [d|d|m|c|[|who|]|who o|]; step_cases;
    rewrite ?count_app; unfold count; simpl; try done;
    try (split; [done|lia]);
    match goal with H : is_Some None |- _ => by destruct H end.
Qed.

Lemma run_dead es : ∀ s s',
  flaskProcess s = None →
  run s es = Ok s' →
  flaskProcess s' = None
  ∧ count isSigkill (log s') = count isSigkill (log s).
Proof.
  induction es as [|e es IH]; intros s s' Hp Hrun; simpl in *.
  - injection Hrun as <-. by split.
  - destruct (step_total s e) as [s1 H1]. rewrite H1 in Hrun.
    destruct (step_dead _ _ _ Hp H1) as [Hp1 Hc1].
    destruct (IH _ _ Hp1 Hrun) as [Hp' Hc']. split; [done|congruence].
Qed.

(** C6. On a live handle [stopFlaskServer] sends SIGTERM and arms a 5000 ms
    timer. When that timer fires, SIGKILL is sent exactly if no ['close'] of
    the child was seen in between; a child that closed in time gets no
    SIGKILL then, nor from anything that happens later. *)
Theorem stop_escalates_iff_still_running (s : Sup) (es : list Event) :
  flaskProcess s = Some TheChild →
  listening s = true →
  forallb (λ e, negb (isGraceFire e)) es = true →
  ∃ s1 s2 s3,
    stopFlaskServer s = Ok s1
    ∧ log s1 = log s ++ [Kill SIGTERM; SetTimeout GraceTimer 5000]
    ∧ graceTimers s1 = S (graceTimers s)
    ∧ run s1 es = Ok s2
    ∧ count isSigkill (log s2) = count isSigkill (log s)
    ∧ step s2 (TimerFired GraceTimer) = Ok s3
    ∧ (existsb isClose es = false →
       log s3 = log s2 ++ [Kill SIGKILL] ∧ flaskProcess s3 = None)
    ∧ (existsb isClose es = true →
       log s3 = log s2
       ∧ ∀ later s4, run s3 later = Ok s4 →
                     count isSigkill (log s4) = count isSigkill (log s)).
Proof.
  intros Hp Hl Hes.
  assert (∃ s1, stopFlaskServer s = Ok s1
                ∧ log s1 = log s ++ [Kill SIGTERM; SetTimeout GraceTimer 5000]
                ∧ graceTimers s1 = S (graceTimers s) ∧ listening s1 = true
                ∧ flaskProcess s1 = Some TheChild) as (s1 & H1 & Hlog1 & Hg1 & Hl1 & Hp1).
  { unfold stopFlaskServer. rewrite Hp. simpl.
    eexists. split; [done|]. simpl. by rewrite <- app_assoc. }
  destruct (run_total s1 es) as [s2 H2].
  destruct (run_no_grace es s1 s2 Hes Hl1 H2) as (Hc2 & Hl2 & Hp2 & Hg2).
  assert (count isSigkill (log s2) = count isSigkill (log s)) as Hc.
  { rewrite Hc2, Hlog1, count_app. unfold count. simpl. lia. }
  destruct (step_total s2 (TimerFired GraceTimer)) as [s3 H3].
  exists s1, s2, s3. repeat (split; [done|]).
  rewrite Hp1 in Hp2.
  assert (∃ n, graceTimers s2 = S n) as [n Hn].
  { exists (pred (graceTimers s2)). lia. }
  split.
  - intros Hno. rewrite Hno in Hp2. clear -H3 Hp2 Hn. step_cases; [done|].
    match goal with
    | H : ¬ is_Some _, E : flaskProcess _ = Some _ |- _ =>
        destruct H; rewrite E; eauto
    end.
  - intros Hyes. rewrite Hyes in Hp2.
    assert (log s3 = log s2 ∧ flaskProcess s3 = None) as [Hlog3 Hp3].
    { clear -H3 Hp2 Hn. by step_cases. }
    split; [done|]. intros later s4 H4.
    destruct (run_dead _ _ _ Hp3 H4) as [_ ->]. by rewrite Hlog3.
Qed.

Lemma stop_escalates_witness :
  ∃ s1 s2 s3,
    stopFlaskServer (startFlaskServer okHost idle) = Ok s1
    ∧ run s1 [StdoutData "booting"; ProcClose (Some 0)] = Ok s2
    ∧ step s2 (TimerFired GraceTimer) = Ok s3
    ∧ log s3 = log s2.
Proof.
  destruct (stop_escalates_iff_still_running
              (startFlaskServer okHost idle)
              [StdoutData "booting"; ProcClose (Some 0)])
    as (s1 & s2 & s3 & H1 & _ & _ & H2 & _ & H3 & _ & Hclosed);
    [reflexivity..|].
  exists s1, s2, s3. repeat (split; [assumption|]).
  apply Hclosed. reflexivity.
Defined.

Lemma stop_on_null s : flaskProcess s = None → stopFlaskServer s = Ok s.
Proof.
  intros H. unfold stopFlaskServer. rewrite H.
  destruct (decide _) as [[? [=]]|]; done.
Qed.

Lemma stop_total s : ∃ s', stopFlaskServer s = Ok s'.
Proof. apply (step_total s StopRequested). Qed.

(** C9. [stopFlaskServer] never throws: not on a first call, not on a second
    call right after, not before any launch. When [flaskProcess] is null
    (nothing launched yet, the child has closed, or the grace timer has
    already killed it) the call returns the state unchanged, log included,
    so no signal is sent. *)
Theorem stopFlaskServer_idempotent (s : Sup) :
  (∃ s1 s2, stopFlaskServer s = Ok s1 ∧ stopFlaskServer s1 = Ok s2)
  ∧ (∃ s2, run s [StopRequested; StopRequested] = Ok s2)
  ∧ stopFlaskServer idle = Ok idle
  ∧ (flaskProcess s = None → stopFlaskServer s = Ok s)
  ∧ (∀ code s', listening s = true →
                step s (ProcClose code) = Ok s' →
                stopFlaskServer s' = Ok s')
  ∧ (∀ s1 s2 s3, stopFlaskServer s = Ok s1 →
                 step s1 (TimerFired GraceTimer) = Ok s2 →
                 stopFlaskServer s2 = Ok s3 →
                 s3 = s2).
Proof.
  split.
  { destruct (stop_total s) as [s1 H1], (stop_total s1) as [s2 H2]. eauto. }
  split; [apply run_total|]. split; [done|]. split; [apply stop_on_null|].
  split.
  - intros code s' Hl H. apply stop_on_null. simpl in H. rewrite Hl in H.
    by injection H as <-.
  - intros s1 s2 s3 H1 H2 H3.
    destruct (flaskProcess s) as [c|] eqn:Hp.
    + assert (flaskProcess s2 = None) as Hp2.
      { clear H3. unfold stopFlaskServer in H1. rewrite Hp in H1.
        simpl in H1. injection H1 as <-. simpl in H2.
        unfold onGraceTimer in H2. simpl in H2. rewrite Hp in H2.
        simpl in H2. by injection H2 as <-. }
      rewrite (stop_on_null _ Hp2) in H3. by injection H3.
    + rewrite (stop_on_null _ Hp) in H1. injection H1 as <-.
      destruct (step_dead _ _ _ Hp H2) as [Hp2 _].
      rewrite (stop_on_null _ Hp2) in H3. by injection H3.
Qed.

(** ** Fatal output on the standard-error stream *)

Lemma quietStart_init h : quietStart (startFlaskServer h idle).
Proof.
  unfold quietStart, startFlaskServer.
  destruct (getPythonPath _ _); [|done].
  by destruct (scriptExists h).
Qed.

Lemma quietStart_step s e s' :
  quietStart s → step s e = Ok s' → quietStart s'.
Proof.
  unfold quietStart. intros I H.
  destruct e as [d|d|m|c|[|who|]|who o|]; step_cases;
    try (intros; done); try (intros; congruence); try (by apply I);
    try (intros Hs Ht; destruct (I Hs Ht) as (? & ? & ?); simplify_eq/=;
         rewrite ?count_app; unfold count in *; simpl; by repeat split; try lia).
Qed.

Lemma quietStart_run es : ∀ s s',
  quietStart s → run s es = Ok s' → quietStart s'.
Proof.
  induction es as [|e es IH]; intros s s' I Hrun; simpl in *.
  - by injection Hrun as <-.
  - destruct (step_total s e) as [s1 H1]. rewrite H1 in Hrun.
    eauto using quietStart_step.
Qed.

(** A readiness signature followed by a fatal line: the startup stays
    pending although readiness has not been confirmed by any probe. *)
Lemma fatal_after_signature_is_ignored :
  fatalSignature "OSError: [Errno 98] Address already in use" = true
  ∧ ∃ s,
      run (startFlaskServer okHost idle)
          [StdoutData " * Serving Flask app 'api_server'";
           StderrData "OSError: [Errno 98] Address already in use"] = Ok s
      ∧ startup s = Pending
      ∧ startupTimer s = true
      ∧ sigPoll s = Some (mkRun (mkPoller 10 1000 0) None 1 0 0 0).
Proof. split; [reflexivity|]. eexists. by vm_compute. Qed.

(** C3 (amended). A chunk on the standard-error stream that contains a
    fatal substring, arriving while [serverStarted] is still false (no
    readiness substring seen on standard output, fallback poll not yet
    successful) and the startup is still pending, rejects the startup at once
    with that chunk as the reason. No request is needed for it: if the
    startup timer has not fired yet, none has been issued at all. *)
Theorem fatal_stderr_rejects_before_signature
    (h : Host) (es : list Event) (s : Sup) (data : string) :
  run (startFlaskServer h idle) es = Ok s →
  listening s = true →
  serverStarted s = false →
  startup s = Pending →
  fatalSignature data = true →
  ∃ s', step s (StderrData data) = Ok s'
        ∧ startup s' = Rejected data
        ∧ log s' = log s
        ∧ startupTimer s' = startupTimer s
        ∧ (startupTimer s = true → count isProbe (log s') = 0%nat).
Proof.
  intros Hrun Hl Hs Hp Hf.
  pose proof (quietStart_run es _ _ (quietStart_init h) Hrun) as I.
  eexists. simpl. rewrite Hl. unfold onStderr. rewrite Hf, Hs. simpl.
  split; [done|]. rewrite Hp. repeat split.
  intros Ht. by destruct (I Hs Ht).
Qed.

Lemma fatal_stderr_rejects_witness :
  ∃ s s',
    run (startFlaskServer okHost idle) [StdoutData "Loading configuration"]
    = Ok s
    ∧ step s (StderrData "ModuleNotFoundError: No module named flask") = Ok s'
    ∧ startup s' = Rejected "ModuleNotFoundError: No module named flask".
Proof.
  set (s := onStdout "Loading configuration" (startFlaskServer okHost idle)).
  destruct (fatal_stderr_rejects_before_signature okHost
              [StdoutData "Loading configuration"] s
              "ModuleNotFoundError: No module named flask")
    as (s' & H1 & H2 & _); [reflexivity..|].
  exists s, s'. auto.
Defined.

(** ** The timeout fallback *)



Lemma pollTrace_200 who es :
  existsb is200 (pollTrace who es) = true ↔ ProbeDone who (Response 200) ∈ es.
Proof.
  induction es as [|e es IH]; [by rewrite elem_of_nil|].
  rewrite elem_of_cons, <- IH. unfold pollTrace. cbn [omap list_omap].
  destruct e as [d|d|m|c|[|[]|]|[] [c| | |]|], who; simpl;
    rewrite ?orb_true_iff;
    try (split; [by right|by intros [[=]|?]]);
    (destruct (Z.eqb_spec c 200) as [->|Hne];
       [split; by left
       |split; [by intros [[=]|?]; right|by intros [[=]|?]; right]]).
Qed.

Lemma pollTrace_no_timeouts who es :
  forallb (λ e, negb (isTimeoutListener e)) es = true →
  forallb (λ e, negb (timesOut e)) (pollTrace who es) = true.
Proof.
  induction es as [|e es IH]; [done|]. simpl.
  intros [He Hes]%andb_true_iff. unfold pollTrace. cbn [omap list_omap].
  destruct (pollEventOf who e) as [pe|] eqn:E; [|by apply IH].
  cbn [forallb]. fold (pollTrace who es). rewrite (IH Hes), andb_true_r.
  destruct e as [d|d|m|c|[|[]|]|[] [c| | |]|], who; by simplify_eq/=.
Qed.

(** How a sequential poll ends, read off its invariant. *)
Lemma sequential_verdict n d k g r fx :
  sequential n d k g r fx →
  (settled r = Some Resolve ↔ g = true)
  ∧ (settled r = Some (Reject notResponding) ↔ k = Nat.max 1 n)
  ∧ (settled r = None ↔ g = false ∧ (k < Nat.max 1 n)%nat)
  ∧ (∀ m, settled r = Some (Reject m) → m = notResponding)
  ∧ (k ≤ Nat.max 1 n)%nat.
Proof.
  intros (_ & _ & [H|[H|[H|H]]]);
    destruct H as (Hs & Hg & Hw & Ht & Hk & Hfx); rewrite Hs, Hg;
    repeat split; try done; try lia; try (intros; lia);
    try (by intros [? ?]); try (intros; congruence).
Qed.




(** Fallback requests that all go unanswered. Every timed-out request costs
    two units (its ['timeout'] listener, then the hang-up error), so the
    poll rejects when the third request times out; the two timers still
    pending send requests four and five, and a 200 on one of them changes
    nothing. *)
Lemma silent_requests_reject_early :
  ∃ s s',
    run (startFlaskServer okHost idle)
        [TimerFired StartupTimer;
         ProbeDone AfterTimeout RequestTimeout;
         ProbeDone AfterTimeout RequestError;
         TimerFired (RetryTimer AfterTimeout);
         TimerFired (RetryTimer AfterTimeout);
         ProbeDone AfterTimeout RequestTimeout;
         ProbeDone AfterTimeout RequestError;
         ProbeDone AfterTimeout RequestTimeout] = Ok s
    ∧ startup s = Rejected startTimeoutMsg
    ∧ count isProbe (log s) = 3%nat
    ∧ run s [ProbeDone AfterTimeout RequestError;
             TimerFired (RetryTimer AfterTimeout);
             TimerFired (RetryTimer AfterTimeout);
             ProbeDone AfterTimeout (Response 200)] = Ok s'
    ∧ startup s' = Rejected startTimeoutMsg
    ∧ count isProbe (log s') = 5%nat.
Proof. do 2 eexists. repeat split; reflexivity. Qed.

(** ** The application: port check, window and readiness message *)

Lemma step_log s e s' :
  step s e = Ok s' →
  ∃ acts, log s' = log s ++ acts ∧ Forall isBackendAct acts.
Proof.
  intros H.
  destruct e as [d|d|m|c|[|who|]|who o|]; step_cases;
    first [ by exists []; rewrite app_nil_r
          | by eexists; split; [reflexivity|repeat constructor]
          | by eexists; split;
              [symmetry; apply app_assoc|repeat constructor] ].
Qed.

Lemma count_backend f acts :
  (∀ a, isBackendAct a → f a = false) →
  Forall isBackendAct acts → count f acts = 0%nat.
Proof.
  intros Hf. induction 1 as [|a acts Ha _ IH]; [done|].
  unfold count in *. simpl. by rewrite (Hf a Ha).
Qed.

Lemma step_count f s e s' :
  (∀ a, isBackendAct a → f a = false) →
  step s e = Ok s' → count f (log s') = count f (log s).
Proof.
  intros Hf (acts & -> & Hacts)%step_log.
  rewrite count_app, (count_backend f acts Hf Hacts). lia.
Qed.

Lemma isSend_backend a : isBackendAct a → isSend a = false.
Proof. by destruct a. Qed.
Lemma isCreate_backend a : isBackendAct a → isCreate a = false.
Proof. by destruct a. Qed.
Lemma isSpawn_backend a : isBackendAct a → isSpawn a = false.
Proof. by destruct a. Qed.

(** A settled promise stays as it is. *)
Lemma step_settled s e s' :
  startup s ≠ Pending → step s e = Ok s' → startup s' = startup s.
Proof.
  intros Hp H.
  destruct e as [d|d|m|c|[|who|]|who o|]; step_cases;
    try done; by destruct (startup s).
Qed.

Lemma appQuit_spec a a' :
  appQuit a = Ok a' →
  stage a' = Exited ∧ readyHooks a' = readyHooks a
  ∧ ∃ acts, log (sup a') = log (sup a) ++ Quit :: acts
            ∧ Forall isBackendAct acts.
Proof.
  unfold appQuit. intros H.
  destruct (stop_total (emit [Quit] (sup a))) as [s Hs].
  pose proof (step_log _ StopRequested _ Hs) as (acts & Hlog & Hacts).
  simpl in H. unfold mbind, Exc_bind in H. rewrite Hs in H. simpl in H.
  injection H as <-. simpl. repeat split. exists acts.
  split; [|done]. rewrite Hlog. simpl. by rewrite <- app_assoc.
Qed.

Lemma Forall_payload_backend h l acts :
  Forall (λ x, isSend x = true → x = Send readyChannel (readyPayload h)) l →
  Forall isBackendAct acts →
  Forall (λ x, isSend x = true → x = Send readyChannel (readyPayload h))
         (l ++ acts).
Proof.
  intros Hl Hacts. apply Forall_app. split; [done|].
  eapply Forall_impl; [exact Hacts|]. intros x Hx Hs.
  by rewrite (isSend_backend x Hx) in Hs.
Qed.

(** The continuation of [await startFlaskServer()] re-establishes the
    invariant from its four stage-independent parts. *)
Lemma afterStartup_inv h a a' :
  (count isSend (log (sup a)) + readyHooks a
   = count isCreate (log (sup a)))%nat →
  (stage a ≠ Windowed → count isCreate (log (sup a)) = 0%nat) →
  (stage a = Windowed →
   startup (sup a) = Fulfilled
   ∨ ∃ r, startup (sup a) = Rejected r ∧ failChoice h ≠ 0) →
  Forall (λ x, isSend x = true → x = Send readyChannel (readyPayload h))
         (log (sup a)) →
  afterStartup h a = Ok a' →
  AppInv h a'.
Proof.
  intros Hh Hn Hw Hp H. unfold afterStartup in H.
  destruct (stage a) eqn:Hst; [|injection H as <-; split; try done;
                                 by rewrite Hst..].
  assert (count isCreate (log (sup a)) = 0%nat) as Hc by (by apply Hn).
  assert (readyHooks a = 0%nat ∧ count isSend (log (sup a)) = 0%nat)
    as [Hh0 Hs0] by lia.
  assert (startup (sup a) ≠ Pending →
          (startup (sup a) = Fulfilled
           ∨ ∃ r, startup (sup a) = Rejected r ∧ failChoice h ≠ 0) →
          ∀ extra, Forall (λ x, isSend x = false ∧ isCreate x = false) extra →
          AppInv h (createWindow
                      (mkApp (emit extra (sup a)) Starting (readyHooks a))))
    as Hcreate.
  { intros Hne Hok extra Hextra.
    assert (count isSend extra = 0%nat ∧ count isCreate extra = 0%nat)
      as [E1 E2].
    { clear -Hextra. unfold count.
      induction Hextra as [|x l [Hx1 Hx2] _ [IH1 IH2]]; [done|].
      simpl. by rewrite Hx1, Hx2. }
    split; simpl.
    - rewrite !count_app, E1, E2. unfold count in *. simpl. lia.
    - done.
    - done.
    - done.
    - rewrite <- app_assoc. apply Forall_app. split; [done|].
      apply Forall_app. split.
      + eapply Forall_impl; [exact Hextra|]. intros x [Hx _] Hx'.
        by rewrite Hx in Hx'.
      + by repeat constructor. }
  destruct (startup (sup a)) as [| |r] eqn:Hs.
  - injection H as <-. by split; rewrite ?Hst.
  - injection H as <-.
    specialize (Hcreate ltac:(done) ltac:(by left) [] ltac:(constructor)).
    unfold emit in Hcreate. rewrite app_nil_r in Hcreate.
    destruct a as [[]]; simpl in *. by subst.
  - destruct (Z.eqb_spec (failChoice h) 0) as [Hq|Hq].
    + apply appQuit_spec in H as (Hst' & Hh' & acts & Hlog & Hacts).
      simpl in *.
      assert (count isCreate (log (sup a')) = 0%nat
              ∧ count isSend (log (sup a')) = 0%nat) as [Hc' Hs'].
      { rewrite Hlog. change (Quit :: acts) with ([Quit] ++ acts).
        rewrite !count_app.
        rewrite (count_backend isCreate acts isCreate_backend Hacts),
                (count_backend isSend acts isSend_backend Hacts).
        unfold count in *. simpl. lia. }
      split; rewrite ?Hst'; try done; [lia|].
      rewrite Hlog. change (Quit :: acts) with ([Quit] ++ acts).
      rewrite app_assoc. apply Forall_payload_backend; [|done].
      repeat (apply Forall_app; split); try done; by repeat constructor.
    + injection H as <-. apply Hcreate; [done|right; eauto|].
      by repeat constructor.
Qed.

Lemma count_none f acts :
  Forall (λ x, f x = false) acts → count f acts = 0%nat.
Proof.
  unfold count. induction 1 as [|x l Hx _ IH]; [done|].
  simpl. by rewrite Hx.
Qed.

Lemma appQuit_total a : ∃ a', appQuit a = Ok a'.
Proof.
  unfold appQuit. destruct (stop_total (emit [Quit] (sup a))) as [s Hs].
  simpl. unfold mbind, Exc_bind. rewrite Hs. simpl. eauto.
Qed.

(** What the continuation appends: never a spawn or a readiness message,
    and a window only when it leaves the [Starting] stage. *)
Lemma afterStartup_log h a a' :
  afterStartup h a = Ok a' →
  ∃ acts, log (sup a') = log (sup a) ++ acts
          ∧ Forall (λ x, isSpawn x = false) acts
          ∧ Forall (λ x, isSend x = false) acts
          ∧ (count isCreate acts
             ≤ match stage a with Starting => 1 | _ => 0 end)%nat
          ∧ (stage a ≠ Starting → a' = a).
Proof.
  unfold afterStartup. intros H.
  destruct (stage a) eqn:Hst;
    [|injection H as <-; exists []; rewrite app_nil_r;
      repeat split; (done || constructor)..].
  destruct (startup (sup a)) as [| |r].
  - injection H as <-. exists []. rewrite app_nil_r.
    repeat split; try done; try constructor. unfold count. simpl. lia.
  - injection H as <-. exists [CreateWindow]. simpl.
    repeat split; try done; by repeat constructor.
  - destruct (failChoice h =? 0).
    + apply appQuit_spec in H as (_ & _ & acts & Hlog & Hacts). simpl in Hlog.
      exists (ShowDialog "Erreur de démarrage Flask" :: Quit :: acts).
      split; [by rewrite Hlog, <- app_assoc|].
      split; [|split; [|split; [|done]]].
      * repeat constructor.
        eapply Forall_impl; [exact Hacts|]. apply isSpawn_backend.
      * repeat constructor.
        eapply Forall_impl; [exact Hacts|]. apply isSend_backend.
      * change (count isCreate (ShowDialog "Erreur de démarrage Flask"
                                :: Quit :: acts))
          with (count isCreate acts).
        rewrite (count_backend isCreate acts isCreate_backend Hacts). lia.
    + injection H as <-. simpl.
      exists [ShowDialog "Erreur de démarrage Flask"; CreateWindow].
      split; [by rewrite <- app_assoc|]. repeat split; try done;
        by repeat constructor.
Qed.

Lemma appStep_total h a e : ∃ a', appStep h a e = Ok a'.
Proof.
  destruct e as [e| |n]; simpl.
  - destruct (step_total (sup a) e) as [s Hs].
    unfold mbind, Exc_bind. rewrite Hs. simpl. unfold afterStartup. simpl.
    destruct (stage a); eauto. destruct (startup s); eauto.
    destruct (failChoice h =? 0); eauto using appQuit_total.
  - destruct (stage a), (readyHooks a); eauto.
  - destruct (stage a); eauto.
Qed.

Lemma appRun_total h es : ∀ a, ∃ a', appRun h a es = Ok a'.
Proof.
  induction es as [|e es IH]; intros a; simpl; [by eauto|].
  destruct (appStep_total h a e) as [a1 H1].
  unfold mbind, Exc_bind. rewrite H1. simpl. apply IH.
Qed.

(** No application event spawns a process, and [Exited] is final. *)
Lemma appStep_spawn h a e a' :
  appStep h a e = Ok a' →
  count isSpawn (log (sup a')) = count isSpawn (log (sup a))
  ∧ (stage a = Exited → stage a' = Exited).
Proof.
  destruct e as [e| |n]; simpl.
  - destruct (step_total (sup a) e) as [s Hs].
    unfold mbind, Exc_bind. rewrite Hs. simpl. intros H.
    apply afterStartup_log in H as Hlog.
    destruct Hlog as (acts & Hlog & Hsp & _ & _ & Hsame). simpl in *.
    split.
    + rewrite Hlog, count_app, (count_none _ _ Hsp),
        (step_count isSpawn _ _ _ isSpawn_backend Hs). lia.
    + intros Hst. rewrite Hsame; [done|]. by rewrite Hst.
  - destruct (stage a) eqn:Hst, (readyHooks a); intros [= <-];
      simpl; rewrite ?count_app; unfold count; simpl;
      (split; [lia|done]).
  - destruct (stage a) eqn:Hst; intros [= <-]; try done.
    destruct (n =? 0)%nat; simpl; rewrite ?count_app; unfold count; simpl;
      (split; [lia|done]).
Qed.

Lemma appRun_spawn h es : ∀ a a',
  stage a = Exited →
  appRun h a es = Ok a' →
  count isSpawn (log (sup a')) = count isSpawn (log (sup a))
  ∧ stage a' = Exited.
Proof.
  induction es as [|e es IH]; intros a a' Hst Hrun; simpl in *.
  - by injection Hrun as <-.
  - destruct (appStep_total h a e) as [a1 H1].
    unfold mbind, Exc_bind in Hrun. rewrite H1 in Hrun. simpl in Hrun.
    destruct (appStep_spawn _ _ _ _ H1) as [Hc Hs].
    destruct (IH a1 a' (Hs Hst) Hrun) as [Hc' Hs']. split; [lia|done].
Qed.

(** The port is taken, the check says so, the user picks the second
    button, and the backend is spawned all the same. *)
Lemma spawn_after_busy_port_report :
  isPortAvailable (netListen (portBusy busyRetryHost)) = false
  ∧ ∃ a, whenReady busyRetryHost = Ok a
         ∧ count isSpawn (log (sup a)) = 1%nat
         ∧ flaskProcess (sup a) = Some TheChild.
Proof. split; [reflexivity|]. eexists. by vm_compute. Qed.

(** C4 (amended). When (host, port) is already bound, the port check
    resolves false and the "Port occupé" box is shown before anything is
    spawned. If the user picks "Quitter" the application quits and no
    process is spawned then or at any later event. If the user picks the
    other button, startup goes on exactly as [launch] does, without checking
    the port again. *)
Theorem busy_port_halts_on_quit (h : Host) :
  portBusy h = true →
  isPortAvailable (netListen (portBusy h)) = false
  ∧ (portChoice h = 0 →
     ∃ a, whenReady h = Ok a
          ∧ stage a = Exited
          ∧ count isSpawn (log (sup a)) = 0%nat
          ∧ ∀ es, ∃ a', appRun h a es = Ok a'
                        ∧ count isSpawn (log (sup a')) = 0%nat)
  ∧ (portChoice h ≠ 0 →
     whenReady h
     = launch h (mkApp (emit [ShowDialog "Port occupé"] idle) Starting 0)).
Proof.
  intros Hb. unfold whenReady. rewrite Hb. simpl.
  split; [done|]. split.
  - intros ->. simpl.
    destruct (appQuit_total (mkApp (emit [ShowDialog "Port occupé"] idle)
                                   Starting 0)) as [a Ha].
    exists a. split; [done|].
    assert (count isSpawn (log (sup a)) = 0%nat ∧ stage a = Exited)
      as [Hc Hst].
    { apply appQuit_spec in Ha as (Hst & _ & acts & Hlog & Hacts).
      split; [|done]. rewrite Hlog. simpl.
      change (ShowDialog "Port occupé" :: Quit :: acts)
        with ([ShowDialog "Port occupé"; Quit] ++ acts).
      rewrite count_app, (count_backend _ _ isSpawn_backend Hacts). done. }
    split; [done|]. split; [done|]. intros es.
    destruct (appRun_total h es a) as [a' Ha']. exists a'. split; [done|].
    destruct (appRun_spawn h es a a' Hst Ha') as [-> _]. done.
  - intros Hne. by destruct (Z.eqb_spec (portChoice h) 0).
Qed.

Lemma busy_port_halts_witness :
  ∃ a, whenReady (mkHost false (λ _, true) true ∅ None false true 0 1) = Ok a
       ∧ stage a = Exited
       ∧ count isSpawn (log (sup a)) = 0%nat.
Proof.
  destruct (busy_port_halts_on_quit
              (mkHost false (λ _, true) true ∅ None false true 0 1))
    as (_ & Hquit & _); [reflexivity|].
  destruct Hquit as (a & H1 & H2 & H3 & _); [reflexivity|].
  exists a. auto.
Defined.

Lemma startFlaskServer_log h s :
  ∃ acts, log (startFlaskServer h s) = log s ++ acts
          ∧ Forall (λ x, isSend x = false) acts
          ∧ Forall (λ x, isCreate x = false) acts.
Proof.
  unfold startFlaskServer.
  destruct (getPythonPath _ _);
    [|by exists []; rewrite app_nil_r; repeat split; constructor].
  destruct (scriptExists h); simpl;
    [|by exists []; rewrite app_nil_r; repeat split; constructor].
  eexists. split; [done|]. split; by repeat constructor.
Qed.

Lemma launch_inv h a a' :
  stage a = Starting →
  readyHooks a = 0%nat →
  count isSend (log (sup a)) = 0%nat →
  count isCreate (log (sup a)) = 0%nat →
  launch h a = Ok a' →
  AppInv h a'.
Proof.
  intros Hst Hh Hs Hc. unfold launch.
  destruct (startFlaskServer_log h (sup a)) as (acts & Hlog & Ha1 & Ha2).
  assert (count isSend (log (startFlaskServer h (sup a))) = 0%nat) as Hs'.
  { rewrite Hlog, count_app, (count_none _ _ Ha1). lia. }
  assert (count isCreate (log (startFlaskServer h (sup a))) = 0%nat) as Hc'.
  { rewrite Hlog, count_app, (count_none _ _ Ha2). lia. }
  apply afterStartup_inv; simpl; [lia|done|done|].
  clear -Hs'. unfold count in Hs'.
  induction (log (startFlaskServer h (sup a))) as [|x l IH]; [done|].
  simpl in Hs'. destruct (isSend x) eqn:E; [done|].
  constructor; [by rewrite E|by apply IH].
Qed.

Lemma whenReady_inv h a : whenReady h = Ok a → AppInv h a.
Proof.
  unfold whenReady.
  destruct (negb _); [destruct (portChoice h =? 0)|].
  - intros (Hst & Hh & acts & Hlog & Hacts)%appQuit_spec. simpl in *.
    assert (count isCreate (log (sup a)) = 0%nat
            ∧ count isSend (log (sup a)) = 0%nat) as [Hc Hs].
    { rewrite Hlog. change (ShowDialog "Port occupé" :: Quit :: acts)
        with ([ShowDialog "Port occupé"; Quit] ++ acts).
      by rewrite !count_app, (count_backend _ _ isCreate_backend Hacts),
        (count_backend _ _ isSend_backend Hacts). }
    split; rewrite ?Hst; try done; [lia|].
    rewrite Hlog. change (ShowDialog "Port occupé" :: Quit :: acts)
      with ([ShowDialog "Port occupé"; Quit] ++ acts).
    apply Forall_payload_backend; [by repeat constructor|done].
  - by apply launch_inv.
  - by apply launch_inv.
Qed.

Lemma appStep_inv h a e a' :
  AppInv h a → appStep h a e = Ok a' → AppInv h a'.
Proof.
  intros [Hh Hn Hw Hst Hp]. destruct e as [e| |n]; simpl.
  - destruct (step_total (sup a) e) as [s Hs].
    unfold mbind, Exc_bind. rewrite Hs. simpl.
    pose proof (step_log _ _ _ Hs) as (acts & Hlog & Hacts).
    apply afterStartup_inv; simpl.
    + by rewrite (step_count _ _ _ _ isSend_backend Hs),
        (step_count _ _ _ _ isCreate_backend Hs).
    + intros Hne. by rewrite (step_count _ _ _ _ isCreate_backend Hs), Hn.
    + intros Hwin.
      assert (startup (sup a) ≠ Pending) as Hset
        by (by destruct (Hw Hwin) as [->|(r & -> & _)]).
      rewrite (step_settled _ _ _ Hset Hs). by apply Hw.
    + rewrite Hlog. by apply Forall_payload_backend.
  - destruct (stage a) eqn:E, (readyHooks a) as [|k] eqn:Ek;
      intros [= <-]; try (by split; rewrite ?E, ?Ek).
    split; simpl; rewrite ?count_app; unfold count in *; simpl;
      first [ lia | done | by intros; apply Hw
            | apply Forall_app; split; [done|by repeat constructor] ].
  - destruct (stage a) eqn:E; intros [= <-]; try (by split; rewrite ?E).
    destruct (n =? 0)%nat; [|by split; rewrite ?E].
    split; simpl; rewrite ?count_app; unfold count in *; simpl;
      first [ lia | done | by intros; apply Hw
            | apply Forall_app; split; [done|by repeat constructor] ].
Qed.

Lemma appRun_inv h es : ∀ a a',
  AppInv h a → appRun h a es = Ok a' → AppInv h a'.
Proof.
  induction es as [|e es IH]; intros a a' I Hrun; simpl in *.
  - by injection Hrun as <-.
  - destruct (appStep_total h a e) as [a1 H1].
    unfold mbind, Exc_bind in Hrun. rewrite H1 in Hrun. simpl in Hrun.
    eauto using appStep_inv.
Qed.

(** Without a re-activation on zero open windows, at most one window. *)
Lemma appStep_one_window h a e a' :
  AppInv h a →
  isReopen e = false →
  (count isCreate (log (sup a)) ≤ 1)%nat →
  appStep h a e = Ok a' →
  (count isCreate (log (sup a')) ≤ 1)%nat.
Proof.
  intros I He Hc. destruct e as [e| |n]; simpl.
  - destruct (step_total (sup a) e) as [s Hs].
    unfold mbind, Exc_bind. rewrite Hs. simpl.
    intros (acts & Hlog & _ & _ & Hcnt & _)%afterStartup_log. simpl in *.
    rewrite Hlog, count_app, (step_count _ _ _ _ isCreate_backend Hs).
    destruct (stage a) eqn:E; [|lia..].
    rewrite (inv_nowin _ _ I); [lia|]. by rewrite E.
  - destruct (stage a), (readyHooks a); intros [= <-]; simpl;
      rewrite ?count_app; unfold count in *; simpl; lia.
  - destruct n; [done|]. by destruct (stage a); intros [= <-].
Qed.

Lemma appRun_one_window h es : ∀ a a',
  AppInv h a →
  forallb (λ e, negb (isReopen e)) es = true →
  (count isCreate (log (sup a)) ≤ 1)%nat →
  appRun h a es = Ok a' →
  (count isCreate (log (sup a')) ≤ 1)%nat.
Proof.
  induction es as [|e es IH]; intros a a' I Hes Hc Hrun; simpl in *.
  - by injection Hrun as <-.
  - apply andb_true_iff in Hes as [He Hes]. apply negb_true_iff in He.
    destruct (appStep_total h a e) as [a1 H1].
    unfold mbind, Exc_bind in Hrun. rewrite H1 in Hrun. simpl in Hrun.
    eapply (IH a1); eauto using appStep_inv, appStep_one_window.
Qed.

Lemma whenReady_one_window h a :
  whenReady h = Ok a → (count isCreate (log (sup a)) ≤ 1)%nat.
Proof.
  assert (∀ b, count isCreate (log (sup b)) = 0%nat →
               launch h b = Ok a → (count isCreate (log (sup a)) ≤ 1)%nat)
    as Hlaunch.
  { intros b Hb. unfold launch.
    intros (acts & Hlog & _ & _ & Hcnt & _)%afterStartup_log. simpl in *.
    destruct (startFlaskServer_log h (sup b)) as (acts' & Hlog' & _ & Hc').
    rewrite Hlog, Hlog', !count_app, Hb, (count_none _ _ Hc'). lia. }
  unfold whenReady.
  destruct (negb _); [destruct (portChoice h =? 0)|]; try by apply Hlaunch.
  intros (_ & _ & acts & Hlog & Hacts)%appQuit_spec. simpl in Hlog.
  rewrite Hlog. change (ShowDialog "Port occupé" :: Quit :: acts)
    with ([ShowDialog "Port occupé"; Quit] ++ acts).
  rewrite count_app, (count_backend _ _ isCreate_backend Hacts).
  unfold count. simpl. lia.
Qed.

(** The startup fails on a fatal line, the user picks "Continuer sans
    serveur", and the window still announces ['flask-server-ready']. *)
Lemma ready_message_after_failed_startup :
  ∃ a0 a,
    whenReady okHost = Ok a0
    ∧ appRun okHost a0
        [Backend (StderrData "ImportError: cannot import name app");
         ReadyToShow] = Ok a
    ∧ startup (sup a) = Rejected "ImportError: cannot import name app"
    ∧ count isSend (log (sup a)) = 1%nat.
Proof. do 2 eexists. repeat split; reflexivity. Qed.

(** C1 (amended). The ['flask-server-ready'] message, carrying the URL, host
    and port, is sent by a window's one-shot ['ready-to-show'] listener: at
    most once per created window, hence at most once in a run where the
    application is never re-activated with no window open. A window exists
    only once the startup has settled, so whenever the message has been sent
    the startup was either fulfilled (readiness confirmed by a probe) or
    rejected with the user choosing to continue without the server; after
    "Quitter" it is never sent. *)
Theorem ready_message_discipline
    (h : Host) (es : list AppEvent) (a0 a : App) :
  whenReady h = Ok a0 →
  appRun h a0 es = Ok a →
  (count isSend (log (sup a)) ≤ count isCreate (log (sup a)))%nat
  ∧ (forallb (λ e, negb (isReopen e)) es = true →
     (count isSend (log (sup a)) ≤ 1)%nat)
  ∧ ((0 < count isSend (log (sup a)))%nat →
     startup (sup a) = Fulfilled
     ∨ ∃ r, startup (sup a) = Rejected r ∧ failChoice h ≠ 0)
  ∧ (stage a = Exited → count isSend (log (sup a)) = 0%nat)
  ∧ Forall (λ x, isSend x = true → x = Send readyChannel (readyPayload h))
           (log (sup a)).
Proof.
  intros H0 Hrun.
  pose proof (whenReady_inv _ _ H0) as I0.
  pose proof (appRun_inv _ _ _ _ I0 Hrun) as [Hh Hn Hw Hst Hp].
  split; [lia|]. split; [|split; [|split; [|done]]].
  - intros Hes.
    pose proof (appRun_one_window _ _ _ _ I0 Hes
                  (whenReady_one_window _ _ H0) Hrun). lia.
  - intros Hpos. apply Hw. destruct (stage a) eqn:E; [|done|];
      rewrite Hn in Hh by done; lia.
  - intros E. rewrite Hn in Hh by (by rewrite E). lia.
Qed.

Lemma ready_message_witness :
  ∃ a0 a,
    whenReady okHost = Ok a0
    ∧ appRun okHost a0
        [Backend (StdoutData " * Running on http://127.0.0.1:5000");
         Backend (ProbeDone AfterSignature (Response 200));
         ReadyToShow; ReadyToShow] = Ok a
    ∧ (count isSend (log (sup a)) ≤ 1)%nat.
Proof.
  assert (∃ a0, whenReady okHost = Ok a0) as [a0 H0]
    by (eexists; reflexivity).
  destruct (appRun_total okHost
              [Backend (StdoutData " * Running on http://127.0.0.1:5000");
               Backend (ProbeDone AfterSignature (Response 200));
               ReadyToShow; ReadyToShow] a0) as [a Ha].
  destruct (ready_message_discipline okHost _ a0 a H0 Ha) as (_ & H1 & _).
  exists a0, a. split; [done|]. split; [done|]. apply H1. reflexivity.
Defined.

(** * Further properties *)

(** ** What loadEnvFile stores *)

Lemma trimStart_headKept s : headKept (JsString.trimStart s).
Proof.
  induction s as [|c s IH]; cbn [JsString.trimStart]; [done|].
  by destruct (JsString.is_white c) eqn:E.
Qed.

Lemma trimStart_id s : headKept s → JsString.trimStart s = s.
Proof.
  destruct s as [|c s]; cbn [JsString.trimStart headKept]; [done|].
  by intros ->.
Qed.

Lemma trimEnd_nonempty c s :
  JsString.is_white c = false →
  JsString.trimEnd (String c s) = String c (JsString.trimEnd s).
Proof. cbn [JsString.trimEnd]. by intros ->. Qed.

Lemma trimEnd_headKept s : headKept s → headKept (JsString.trimEnd s).
Proof.
  destruct s as [|c s]; [done|]. cbn [headKept]. intros H.
  by rewrite (trimEnd_nonempty _ _ H).
Qed.

Lemma trimEnd_idem s : JsString.trimEnd (JsString.trimEnd s) = JsString.trimEnd s.
Proof.
  induction s as [|c s IH]; [done|]. cbn [JsString.trimEnd].
  destruct (JsString.is_white c && JsString.is_empty (JsString.trimEnd s)) eqn:E;
    [done|].
  cbn [JsString.trimEnd]. by rewrite IH, E.
Qed.

Lemma trim_headKept s : headKept (JsString.trim s).
Proof. apply trimEnd_headKept, trimStart_headKept. Qed.

Lemma trim_idem s : JsString.trim (JsString.trim s) = JsString.trim s.
Proof.
  unfold JsString.trim at 1.
  rewrite (trimStart_id _ (trim_headKept s)).
  unfold JsString.trim. apply trimEnd_idem.
Qed.

Lemma contains_trimStart c s :
  contains c s = false → contains c (JsString.trimStart s) = false.
Proof.
  induction s as [|c' s IH]; [done|]. cbn [contains JsString.trimStart].
  intros [H1 H2]%orb_false_iff.
  destruct (JsString.is_white c'); [by apply IH|].
  cbn [contains]. by rewrite H1, H2.
Qed.

Lemma contains_trimEnd c s :
  contains c s = false → contains c (JsString.trimEnd s) = false.
Proof.
  induction s as [|c' s IH]; [done|]. cbn [contains JsString.trimEnd].
  intros [H1 H2]%orb_false_iff.
  destruct (_ && _); [done|]. cbn [contains]. by rewrite H1, IH.
Qed.

Lemma contains_trim c s :
  contains c s = false → contains c (JsString.trim s) = false.
Proof. intros H. by apply contains_trimEnd, contains_trimStart. Qed.

(** The first piece of a split holds no separator and starts like the
    whole string. *)
Lemma split_head sep s h t :
  JsString.split sep s = h :: t →
  contains sep h = false
  ∧ (h ≠ "" → ∃ c r r', h = String c r ∧ s = String c r').
Proof.
  revert h t. induction s as [|c s IH]; intros h t; simpl.
  - intros [= <- <-]. done.
  - destruct (Ascii.eqb c sep) eqn:E.
    + intros [= <- <-]. done.
    + destruct (split_cons sep s) as (h' & t' & Hs). rewrite Hs.
      intros [= <- <-]. destruct (IH h' t' Hs) as [Hc _].
      split; [simpl; by rewrite E, Hc|]. eauto.
Qed.

(** Every binding a line contributes is in normal form. *)
Lemma parseEnvLine_normal line k v :
  parseEnvLine line = Some (k, v) →
  k ≠ "" ∧ trimmed k ∧ contains "=" k = false
  ∧ JsString.startsWith "#" k = false ∧ trimmed v.
Proof.
  unfold parseEnvLine, trimmed.
  pose proof (trim_headKept line) as Hhead.
  destruct (JsString.truthy (JsString.trim line)
            && negb (JsString.startsWith "#" (JsString.trim line))) eqn:E;
    [|done].
  apply andb_true_iff in E as [_ Hhash%negb_true_iff].
  destruct (JsString.split "=" (JsString.trim line)) as [|key parts] eqn:Hs;
    [done|].
  destruct (JsString.truthy key && _) eqn:E2; [|done].
  apply andb_true_iff in E2 as [Hkey _].
  intros [= <- <-].
  destruct (split_head _ _ _ _ Hs) as [Hno Hfirst].
  destruct Hfirst as (c & r & r' & -> & Ht); [by destruct key|].
  rewrite Ht in Hhead, Hhash. cbn [headKept] in Hhead.
  rewrite startsWith_char in Hhash.
  assert (JsString.trim (String c r) = String c (JsString.trimEnd r)) as Hk.
  { unfold JsString.trim. cbn [JsString.trimStart]. rewrite Hhead.
    by apply trimEnd_nonempty. }
  split; [by rewrite Hk|]. split; [apply trim_idem|].
  split; [by apply contains_trim|]. split; [|apply trim_idem].
  by rewrite Hk, startsWith_char.
Qed.

(** X1. Whatever the file, every key [loadEnvFile] stores is non-empty,
    free of surrounding white space, free of [=] and does not start with
    [#]; every stored value is free of surrounding white space. *)
Theorem loadEnvFile_normal_form (file : option string) (k v : string) :
  loadEnvFile file !! k = Some v →
  k ≠ "" ∧ trimmed k ∧ contains "=" k = false
  ∧ JsString.startsWith "#" k = false ∧ trimmed v.
Proof.
  destruct file as [content|]; simpl; [|by rewrite lookup_empty].
  unfold loadEnvLines.
  generalize (JsString.split "010" content). intros lines.
  assert (∀ m : gmap string string,
            (∀ k v, m !! k = Some v →
                    k ≠ "" ∧ trimmed k ∧ contains "=" k = false
                    ∧ JsString.startsWith "#" k = false ∧ trimmed v) →
            foldl envLineStep m lines !! k = Some v →
            k ≠ "" ∧ trimmed k ∧ contains "=" k = false
            ∧ JsString.startsWith "#" k = false ∧ trimmed v) as Hfold.
  { induction lines as [|l lines IH]; intros m Hm; simpl; [by apply Hm|].
    apply IH. intros k' v'. unfold envLineStep.
    destruct (parseEnvLine l) as [[k0 v0]|] eqn:El; [|by apply Hm].
    unfold setProperty. destruct (String.eqb k0 "__proto__"); [by apply Hm|].
    destruct (decide (k0 = k')) as [->|Hne].
    - rewrite lookup_insert_eq. intros [= <-].
      by eapply parseEnvLine_normal.
    - rewrite lookup_insert_ne by done. apply Hm. }
  apply Hfold. intros k' v'. by rewrite lookup_empty.
Qed.

Lemma loadEnvFile_normal_form_witness :
  trimmed "B" ∧ trimmed "2=3".
Proof.
  destruct (loadEnvFile_normal_form (Some sample_env) "B" "2=3")
    as (_ & Hk & _ & _ & Hv); [by vm_compute|].
  by split.
Defined.

Lemma trimEnd_app_kept a b :
  JsString.trimEnd b ≠ "" →
  JsString.trimEnd (a +:+ b) = a +:+ JsString.trimEnd b.
Proof.
  intros Hb. induction a as [|c a IH]; [done|].
  rewrite !append_String. cbn [JsString.trimEnd]. rewrite IH.
  destruct (a +:+ JsString.trimEnd b) eqn:E.
  - destruct a; [|done]. rewrite append_empty_l in E. done.
  - cbn [JsString.is_empty]. by rewrite andb_false_r.
Qed.

Lemma trimmed_trimEnd s : trimmed s → JsString.trimEnd s = s.
Proof.
  unfold trimmed. intros H. rewrite <- H at 1. unfold JsString.trim.
  rewrite trimEnd_idem. exact H.
Qed.

Lemma trimmed_headKept s : trimmed s → headKept s.
Proof. unfold trimmed. intros <-. apply trim_headKept. Qed.

(** X2. A line [KEY=VALUE] whose key is non-empty, free of surrounding
    white space and of [=], does not start with [#] and is not [__proto__],
    and whose value is free of surrounding white space, is read back
    verbatim: it binds exactly [KEY] to [VALUE], also as the last line of
    any file. With the key [__proto__] the line parses the same way but
    binds nothing. *)
Theorem clean_line_read_back (k v : string) :
  k ≠ "" →
  trimmed k →
  contains "=" k = false →
  JsString.startsWith "#" k = false →
  trimmed v →
  parseEnvLine (k +:+ "=" +:+ v) = Some (k, v)
  ∧ (k ≠ "__proto__" →
     ∀ earlier, loadEnvLines (earlier ++ [k +:+ "=" +:+ v]) !! k = Some v)
  ∧ (k = "__proto__" →
     ∀ earlier,
       loadEnvLines (earlier ++ [k +:+ "=" +:+ v]) = loadEnvLines earlier).
Proof.
  intros Hne Hk Heq Hhash Hv.
  assert (parseEnvLine (k +:+ "=" +:+ v) = Some (k, v)) as Hparse.
  { pose proof Hk as Hk'. pose proof Hv as Hv'. unfold trimmed in Hk', Hv'.
    rewrite <- Hk' at 2. rewrite <- Hv' at 2.
    apply parseEnvLine_first_equals; try done.
    unfold JsString.trim.
    rewrite trimStart_id.
    - change (k +:+ "=" +:+ v) with (k +:+ String "=" v).
      rewrite trimEnd_app_kept;
        rewrite (trimEnd_nonempty "=" v eq_refl), (trimmed_trimEnd v Hv);
        done.
    - pose proof (trimmed_headKept k Hk) as Hh.
      destruct k as [|c r]; [done|]. by rewrite append_String. }
  split; [done|]. split.
  - intros Hproto earlier. by apply loadEnvLines_last_wins.
  - intros -> earlier. rewrite loadEnvLines_snoc. unfold envLineStep.
    by rewrite Hparse.
Qed.

Lemma clean_line_read_back_witness :
  parseEnvLine "FLASK_SECRET=a=b c" = Some ("FLASK_SECRET", "a=b c")
  ∧ loadEnvLines ["A=1"; "FLASK_SECRET=a=b c"] !! "FLASK_SECRET"
    = Some "a=b c"
  ∧ loadEnvLines ["A=1"; "__proto__=a=b c"] = loadEnvLines ["A=1"].
Proof.
  split; [|split].
  - apply (clean_line_read_back "FLASK_SECRET" "a=b c"); by vm_compute.
  - apply (clean_line_read_back "FLASK_SECRET" "a=b c") with (earlier := ["A=1"]);
      by vm_compute.
  - apply (clean_line_read_back "__proto__" "a=b c") with (earlier := ["A=1"]);
      by vm_compute.
Defined.

(** ** getPythonPath *)

Lemma find_first {A} (f : A → bool) (l : list A) (x : A) :
  List.find f l = Some x ↔
  ∃ before after, l = before ++ x :: after ∧ f x = true
                  ∧ Forall (λ y, f y = false) before.
Proof.
  induction l as [|y l IH]; simpl.
  - split; [done|]. intros (b & a & H & _). by destruct b.
  - destruct (f y) eqn:E.
    + split.
      * intros [= <-]. exists [], l. by repeat split.
      * intros ([|z b] & a & H & Hx & Hb); simplify_eq/=; [done|].
        inversion Hb; congruence.
    + rewrite IH. split.
      * intros (b & a & -> & Hx & Hb). exists (y :: b), a.
        repeat split; [done|]. by constructor.
      * intros ([|z b] & a & H & Hx & Hb); simplify_eq/=; [congruence|].
        exists b, a. repeat split; [done|]. by inversion Hb.
Qed.

Lemma find_none {A} (f : A → bool) (l : list A) :
  List.find f l = None ↔ Forall (λ y, f y = false) l.
Proof.
  induction l as [|y l IH]; simpl; [by split|].
  destruct (f y) eqn:E.
  - split; [done|]. intros H. inversion H; congruence.
  - rewrite IH. split; [by constructor|]. intros H. by inversion H.
Qed.

(** X3. [getPythonPath] returns the first candidate, in the platform's
    order, whose [--version] probe succeeds: every candidate before it
    failed. It throws exactly when every candidate fails. On a platform
    other than win32 it never returns [py]. *)
Theorem getPythonPath_first_working (win32 : bool) (works : string → bool) :
  (∀ cmd, getPythonPath win32 works = Some cmd ↔
          ∃ before after,
            pythonCommands win32 = before ++ cmd :: after
            ∧ works cmd = true
            ∧ Forall (λ c, works c = false) before)
  ∧ (getPythonPath win32 works = None ↔
     Forall (λ c, works c = false) (pythonCommands win32))
  ∧ (win32 = false → getPythonPath win32 works ≠ Some "py").
Proof.
  unfold getPythonPath. split; [intros cmd; apply find_first|].
  split; [apply find_none|].
  intros -> H. apply find_first in H as (b & a & Hl & _).
  simpl in Hl. destruct b as [|? [|? [|? ?]]]; simplify_eq/=.
Qed.

(** ** A launch that fails at once *)

(** X4. When no Python command works or the script file is missing,
    [startFlaskServer] rejects at once and leaves nothing behind: no child,
    no listener, no timer, no request. Whatever events follow, the state
    stays exactly as it was, so nothing is ever spawned, probed or
    signalled. *)
Theorem failed_launch_is_inert (h : Host) (es : list Event) :
  launches h = false →
  (∃ reason, startup (startFlaskServer h idle) = Rejected reason)
  ∧ log (startFlaskServer h idle) = []
  ∧ flaskProcess (startFlaskServer h idle) = None
  ∧ run (startFlaskServer h idle) es = Ok (startFlaskServer h idle).
Proof.
  unfold launches, startFlaskServer. intros Hl.
  assert (∀ s, listening s = false → startupTimer s = false →
               graceTimers s = 0%nat → sigPoll s = None → toPoll s = None →
               flaskProcess s = None → run s es = Ok s) as Hinert.
  { induction es as [|e es IH]; intros s H1 H2 H3 H4 H5 H6; [done|].
    assert (step s e = Ok s) as Hstep.
    { destruct e as [d|d|m|c|[|who|]|who o|]; simpl;
        rewrite ?H1, ?H2, ?H3; try done.
      - unfold onRetryTimer, withPoll.
        by destruct who; simpl; rewrite ?H4, ?H5.
      - unfold onProbeDone, withPoll.
        by destruct who; simpl; rewrite ?H4, ?H5.
      - by apply stop_on_null. }
    change (run s (e :: es)) with (s' ← step s e; run s' es).
    rewrite Hstep. by apply IH. }
  destruct (getPythonPath _ _); [destruct (scriptExists h); [done|]|];
    (split; [by eexists|]); (split; [done|]); (split; [done|]);
    by apply Hinert.
Qed.

Lemma failed_launch_is_inert_witness :
  run (startFlaskServer
         (mkHost true (λ _, false) true ∅ None false false 0 1) idle)
      [StdoutData " * Running on http://127.0.0.1:5000";
       TimerFired StartupTimer; StopRequested; TimerFired GraceTimer]
  = Ok (startFlaskServer
          (mkHost true (λ _, false) true ∅ None false false 0 1) idle).
Proof.
  apply (failed_launch_is_inert
           (mkHost true (λ _, false) true ∅ None false false 0 1)).
  reflexivity.
Defined.

(** ** Bounded probing *)

Lemma pollsAccounted_init h : pollsAccounted (startFlaskServer h idle).
Proof.
  unfold pollsAccounted, pollAccount, startFlaskServer.
  destruct (getPythonPath _ _); [|done].
  by destruct (scriptExists h).
Qed.

(** A poll's own events keep its account and leave the other poll alone. *)
Lemma pollsAccounted_poll who f s :
  (∀ r, (timers (fst (f r)) + length (List.filter isRequest (snd (f r)))
         + cap r = timers r + cap (fst (f r)))%nat
        ∧ maxRetries (vars (fst (f r))) = maxRetries (vars r)) →
  pollsAccounted s → pollsAccounted (withPoll who f s).
Proof.
  intros Hf (Hsig & Hto & Hs & Ht).
  destruct (withPoll_cases who f s)
    as [[_ ->]|(r & Hr & Hr' & Hother & _ & _ & _ & Htm & _ & Hlog & Hst)];
    [done|].
  destruct (Hf r) as [Hcap Hmax].
  assert (∀ other, pollAccount other s →
                   pollAccount other (withPoll who f s)) as Hacc.
  { intros other. unfold pollAccount.
    rewrite Hlog, count_app, count_effectActions.
    destruct (decide (other = who)) as [->|Hne].
    - rewrite Hr, Hr', Hmax. intros [-> H]. split; [done|]. lia.
    - rewrite (Hother _ Hne), Nat.add_0_r. done. }
  split; [by apply Hacc|]. split; [by apply Hacc|]. rewrite Htm.
  destruct who.
  - pose proof (Hother AfterTimeout ltac:(done)) as Ho. cbn [getPoll] in *.
    split; [intros E; specialize (Hs (Hst E)); congruence|]. by rewrite Ho.
  - pose proof (Hother AfterSignature ltac:(done)) as Ho. cbn [getPoll] in *.
    split; [intros E; rewrite Ho; apply Hs, Hst, E|].
    intros E. specialize (Ht E). congruence.
Qed.

Lemma pollsAccounted_step s e s' :
  pollsAccounted s → step s e = Ok s' → pollsAccounted s'.
Proof.
  intros I H.
  destruct e as [d|d|m|c|[|who|]|who o|];
    [| | | | |simpl in H; injection H as <-| |simpl in H; injection H as <-|].
  6: { apply pollsAccounted_poll; [|done]. intros r.
       destruct (pollStep_cap r RetryFired) as (? & ? & _). done. }
  7: { apply pollsAccounted_poll; [|done]. intros r.
       destruct (pollStep_cap r (Fires o)) as (? & ? & _). done. }
  all: revert I; unfold pollsAccounted, pollAccount, cap;
    intros (Hsig & Hto & Hs & Ht); cbn [getPoll] in Hsig, Hto;
    step_cases; cbn [getPoll]; simpl in *;
    repeat match goal with
           | H : _ && _ = true |- _ => apply andb_true_iff in H as [? ?]
           | H : negb _ = true |- _ => apply negb_true_iff in H
           | H : ?a = ?a → _ |- _ => specialize (H eq_refl)
           | H : ?a = ?b → _, E : ?a = ?b |- _ => specialize (H E)
           | H : _ ∧ _ |- _ => destruct H
           end;
    simplify_eq/=;
    unfold count in *; rewrite ?List.filter_app, ?length_app; simpl;
    rewrite ?Nat.add_0_r;
    repeat split; try done; try lia; try (intros; congruence).
Qed.

Lemma pollsAccounted_run es : ∀ s s',
  pollsAccounted s → run s es = Ok s' → pollsAccounted s'.
Proof.
  induction es as [|e es IH]; intros s s' I Hrun; simpl in *.
  - by injection Hrun as <-.
  - destruct (step_total s e) as [s1 H1]. rewrite H1 in Hrun.
    eauto using pollsAccounted_step.
Qed.

Lemma pollAccount_bound who s :
  pollAccount who s → (count (isProbeOf who) (log s) ≤ pollBudget who)%nat.
Proof.
  unfold pollAccount, cap. destruct (getPoll who s) as [r|]; [|lia].
  intros [-> H]. destruct who; simpl in *; lia.
Qed.

Lemma count_isProbe l :
  count isProbe l
  = (count (isProbeOf AfterSignature) l + count (isProbeOf AfterTimeout) l)%nat.
Proof.
  unfold count. induction l as [|[| | [] | | | | | ] l IH]; simpl; lia.
Qed.

(** X5. Whatever the child prints, however requests call back (once, twice,
    overlapping) and timers fire, one startup issues at most 10
    confirmation requests after a readiness signature and at most 5
    fallback requests after the startup timeout: at most 15 requests in
    all. *)
Theorem probes_are_bounded (h : Host) (es : list Event) (s : Sup) :
  run (startFlaskServer h idle) es = Ok s →
  (count (isProbeOf AfterSignature) (log s) ≤ 10)%nat
  ∧ (count (isProbeOf AfterTimeout) (log s) ≤ 5)%nat
  ∧ (count isProbe (log s) ≤ 15)%nat.
Proof.
  intros Hrun.
  pose proof (pollsAccounted_run es _ _ (pollsAccounted_init h) Hrun)
    as (Hsig%pollAccount_bound & Hto%pollAccount_bound & _).
  simpl in Hsig, Hto. rewrite count_isProbe. lia.
Qed.

Lemma probes_are_bounded_witness :
  ∃ s,
    run (startFlaskServer okHost idle)
        [StdoutData "Serving Flask app";
         ProbeDone AfterSignature RequestTimeout;
         ProbeDone AfterSignature RequestError;
         TimerFired (RetryTimer AfterSignature);
         TimerFired (RetryTimer AfterSignature)] = Ok s
    ∧ count isProbe (log s) = 3%nat
    ∧ (count isProbe (log s) ≤ 15)%nat.
Proof.
  eexists. split; [reflexivity|]. split; [reflexivity|].
  apply (probes_are_bounded okHost
           [StdoutData "Serving Flask app";
            ProbeDone AfterSignature RequestTimeout;
            ProbeDone AfterSignature RequestError;
            TimerFired (RetryTimer AfterSignature);
            TimerFired (RetryTimer AfterSignature)]).
  reflexivity.
Defined.

(** ** The startup promise *)

(** X6. Once the startup promise is settled, fulfilled or rejected, no
    later output, probe result, timer, process event or stop request
    changes its state or its rejection reason. *)
Theorem startup_settles_once (s : Sup) (es : list Event) (s' : Sup) :
  startup s ≠ Pending →
  run s es = Ok s' →
  startup s' = startup s.
Proof.
  revert s. induction es as [|e es IH]; intros s Hp Hrun; simpl in *.
  - by injection Hrun as <-.
  - destruct (step_total s e) as [s1 H1]. rewrite H1 in Hrun.
    pose proof (step_settled _ _ _ Hp H1) as E.
    rewrite <- E. apply IH; [by rewrite E|done].
Qed.

Lemma startup_settles_once_witness :
  ∃ s', run (onStderr "ImportError: flask" (startFlaskServer okHost idle))
            [StdoutData "Running on http://127.0.0.1:5000";
             ProbeDone AfterSignature (Response 200)] = Ok s'
        ∧ startup s' = Rejected "ImportError: flask".
Proof.
  destruct (run_total (onStderr "ImportError: flask"
                         (startFlaskServer okHost idle))
              [StdoutData "Running on http://127.0.0.1:5000";
               ProbeDone AfterSignature (Response 200)]) as [s' Hs'].
  exists s'. split; [done|].
  rewrite (startup_settles_once
             (onStderr "ImportError: flask" (startFlaskServer okHost idle))
             [StdoutData "Running on http://127.0.0.1:5000";
              ProbeDone AfterSignature (Response 200)] s');
    [reflexivity|discriminate|exact Hs'].
Defined.

(** Only a request answered with status 200 fulfils a promise that was
    not fulfilled before. *)
Lemma step_fulfils s e s' :
  startup s ≠ Fulfilled →
  step s e = Ok s' →
  startup s' = Fulfilled →
  ∃ who, e = ProbeDone who (Response 200).
Proof.
  intros Hp H Hf.
  destruct e as [d|d|m|c|[|who|]|who o|];
    try (exfalso; step_cases; try done;
         by match goal with
            | H : reject _ (startup ?s) = Fulfilled |- _ =>
                destruct (startup s)
            end).
  exists who. f_equal.
  destruct (decide (o = Response 200)) as [|Hne]; [done|]. exfalso.
  destruct o as [c| | |]; step_cases; arith_bools; simplify_eq/=;
    try done; by destruct (startup s).
Qed.

(** X7. A startup is fulfilled only through a health probe: in every run,
    if the promise returned by [startFlaskServer] ends up fulfilled, some
    request of one of the two polls was answered with status 200. Output
    patterns alone never make it succeed. *)
Theorem fulfilled_only_by_probe (h : Host) (es : list Event) (s : Sup) :
  run (startFlaskServer h idle) es = Ok s →
  startup s = Fulfilled →
  ∃ who, ProbeDone who (Response 200) ∈ es.
Proof.
  assert (∀ s0, startup s0 ≠ Fulfilled →
                run s0 es = Ok s → startup s = Fulfilled →
                ∃ who, ProbeDone who (Response 200) ∈ es) as Hgen.
  { induction es as [|e es IH]; intros s0 Hne Hrun Hf; simpl in Hrun.
    - injection Hrun as <-. done.
    - destruct (step_total s0 e) as [s1 H1]. rewrite H1 in Hrun.
      simpl in Hrun.
      destruct (startup s1) eqn:Hs1.
      + destruct (IH s1) as [who Hin]; [by rewrite Hs1|done..|].
        exists who. by right.
      + destruct (step_fulfils _ _ _ Hne H1 Hs1) as [who ->].
        exists who. by left.
      + destruct (IH s1) as [who Hin]; [by rewrite Hs1|done..|].
        exists who. by right. }
  intros Hrun Hf. apply (Hgen (startFlaskServer h idle)); try done.
  unfold startFlaskServer. destruct (getPythonPath _ _);
    [destruct (scriptExists h)|]; done.
Qed.

Lemma fulfilled_only_by_probe_witness :
  ∃ who, ProbeDone who (Response 200)
         ∈ [StdoutData "Serving Flask app";
            ProbeDone AfterSignature (Response 200)].
Proof.
  apply (fulfilled_only_by_probe okHost
           [StdoutData "Serving Flask app";
            ProbeDone AfterSignature (Response 200)]
           (onProbeDone AfterSignature (Response 200)
              (onStdout "Serving Flask app" (startFlaskServer okHost idle))));
    reflexivity.
Defined.

(** ** The confirmation poll after a readiness signature *)

(** With [serverStarted] set and no fallback poll, the startup promise
    shows the confirmation poll's own promise, whatever the event: fatal
    lines, process errors and the startup timer included. *)
Lemma confirmation_step s e s' r :
  serverStarted s = true →
  toPoll s = None →
  sigPoll s = Some r →
  startup s = signatureSettles (settled r) Pending →
  step s e = Ok s' →
  serverStarted s' = true ∧ toPoll s' = None
  ∧ sigPoll s'
    = Some (match pollEventOf AfterSignature e with
            | Some pe => fst (pollStep r pe)
            | None => r
            end)
  ∧ startup s'
    = signatureSettles
        (settled (match pollEventOf AfterSignature e with
                  | Some pe => fst (pollStep r pe)
                  | None => r
                  end)) Pending
  ∧ (enabled s e = true →
     match pollEventOf AfterSignature e with
     | Some pe => pollEnabled r pe = true
     | None => True
     end).
Proof.
  intros Hs Hto Hr Hst H.
  destruct e as [d|d|m|c|[|[]|]|[] o|]; simpl;
    unfold enabled; simpl; rewrite ?Hr, ?Hto;
    try (step_cases; rewrite ?Hs in *; simpl in *;
         rewrite ?andb_false_r in *; simplify_eq/=; by repeat split).
  all: destruct r as [[n d k] st w a h t]; try destruct o as [c| | |];
    step_cases; simplify_eq/=; repeat split; rewrite ?Hst; done.
Qed.

Lemma confirmation_run es : ∀ s s' r,
  serverStarted s = true →
  toPoll s = None →
  sigPoll s = Some r →
  startup s = signatureSettles (settled r) Pending →
  run s es = Ok s' →
  toPoll s' = None
  ∧ sigPoll s' = Some (fst (pollRun (r, []) (pollTrace AfterSignature es)))
  ∧ startup s'
    = signatureSettles
        (settled (fst (pollRun (r, []) (pollTrace AfterSignature es))))
        Pending
  ∧ (feasible s es = true →
     pollFeasible r (pollTrace AfterSignature es) = true).
Proof.
  induction es as [|e es IH]; intros s s' r Hs Hto Hr Hst Hrun.
  - simpl in Hrun. injection Hrun as <-. by repeat split.
  - change (run s (e :: es)) with (s1 ← step s e; run s1 es) in Hrun.
    destruct (step s e) as [s1|] eqn:H1; [|done].
    change (s1' ← Ok s1; run s1' es) with (run s1 es) in Hrun.
    destruct (confirmation_step _ _ _ _ Hs Hto Hr Hst H1)
      as (Hs1 & Hto1 & Hr1 & Hst1 & Hen).
    destruct (IH _ _ _ Hs1 Hto1 Hr1 Hst1 Hrun) as (Hto' & Hr' & Hst' & Hfe).
    unfold pollTrace in *. cbn [omap list_omap feasible].
    rewrite H1.
    destruct (pollEventOf AfterSignature e) as [pe|]; cbn [pollRun fst snd].
    + rewrite (pollRun_state _ _ _ []).
      split; [done|]. split; [done|]. split; [done|].
      intros [Hen' Hfe']%andb_true_iff. cbn [pollFeasible].
      by rewrite (Hen Hen'), (Hfe Hfe').
    + split; [done|]. split; [done|]. split; [done|].
      intros [_ Hfe']%andb_true_iff. by apply Hfe.
Qed.

(** X8. When a readiness substring arrives on standard output before the
    startup timer has fired (and the startup is still pending), a poll with
    budget 10 and delay 1000 starts, the fallback poll never does, and from
    then on only that poll settles the startup, whatever else happens
    (fatal lines on standard error, a process error, the child closing, the
    startup timer firing): fulfilled when the poll resolves, rejected with
    the poll's own message when it rejects. In a run where every request
    calls back once (no timeout), the startup ends fulfilled exactly when
    one of the at most ten probes answers 200, and rejected with "Flask
    server did not respond in time" exactly when ten probes have failed. *)
Theorem confirmation_poll_decides
    (h : Host) (before : list Event) (s : Sup) (data : string)
    (es : list Event) :
  run (startFlaskServer h idle) before = Ok s →
  listening s = true →
  serverStarted s = false →
  startupTimer s = true →
  startup s = Pending →
  readySignature data = true →
  ∃ s1 s2 r,
    step s (StdoutData data) = Ok s1
    ∧ sigPoll s1 = Some (mkRun (mkPoller 10 1000 0) None 1 0 0 0)
    ∧ startup s1 = Pending
    ∧ run s1 es = Ok s2
    ∧ toPoll s2 = None
    ∧ sigPoll s2 = Some r
    ∧ startup s2 = signatureSettles (settled r) Pending
    ∧ (feasible s1 es = true →
       forallb (λ e, negb (isTimeoutListener e)) es = true →
       (startup s2 = Fulfilled ↔ ProbeDone AfterSignature (Response 200) ∈ es)
       ∧ (startup s2 = Rejected notResponding
          ↔ failures (pollTrace AfterSignature es) = 10%nat)
       ∧ (failures (pollTrace AfterSignature es) ≤ 10)%nat).
Proof.
  intros Hreach Hl Hs Ht Hp Hsig.
  pose proof (quietStart_run before _ _ (quietStart_init h) Hreach) as I.
  destruct (I Hs Ht) as (_ & _ & Hto).
  set (s1 := onStdout data s).
  assert (step s (StdoutData data) = Ok s1) as H1 by (simpl; by rewrite Hl).
  set (r0 := fst (checkFlaskServer 10 1000)).
  assert (sigPoll s1 = Some r0
          ∧ serverStarted s1 = true ∧ toPoll s1 = None
          ∧ startup s1 = Pending) as (Hr1 & Hs1 & Hto1 & Hp1).
  { unfold s1, onStdout. simpl. rewrite Hsig, Hs. simpl. done. }
  destruct (run_total s1 es) as [s2 H2].
  destruct (confirmation_run es s1 s2 r0) as (Hto2 & Hr2 & Hst2 & Hfe);
    try done.
  exists s1, s2, (fst (pollRun (r0, []) (pollTrace AfterSignature es))).
  do 7 (split; [done|]).
  intros Hfeas Hnt.
  assert (fst (pollRun (r0, []) (pollTrace AfterSignature es))
          = fst (pollRun (checkFlaskServer 10 1000)
                   (pollTrace AfterSignature es))) as Hsame.
  { change (checkFlaskServer 10 1000) with (r0, [Request]).
    apply pollRun_state. }
  pose proof (sequential_run 10 1000 (pollTrace AfterSignature es) 0 false
                r0 [Request] (sequential_init 10 1000) (Hfe Hfeas)
                (pollTrace_no_timeouts _ _ Hnt)) as Hseq.
  change (r0, [Request]) with (checkFlaskServer 10 1000) in Hseq.
  apply sequential_verdict in Hseq as (Hres & Hrej & _ & Hmsg & Hle).
  rewrite <- Hsame in *. rewrite Hst2. simpl in *.
  rewrite <- pollTrace_200, <- Hres, <- Hrej.
  split; [|split; [|done]].
  - destruct (settled _) as [[|m]|]; by split.
  - destruct (settled _) as [[|m]|]; simpl; split; try done.
    + intros [= ->]. done.
    + intros [= ->]. done.
Qed.

Lemma confirmation_poll_decides_witness :
  ∃ s2,
    run (startFlaskServer okHost idle)
        [StdoutData " * Running on http://127.0.0.1:5000";
         StderrData "Address already in use";
         ProbeDone AfterSignature RequestError;
         TimerFired StartupTimer;
         TimerFired (RetryTimer AfterSignature);
         ProbeDone AfterSignature (Response 200)] = Ok s2
    ∧ startup s2 = Fulfilled.
Proof.
  destruct (confirmation_poll_decides okHost []
              (startFlaskServer okHost idle)
              " * Running on http://127.0.0.1:5000"
              [StderrData "Address already in use";
               ProbeDone AfterSignature RequestError;
               TimerFired StartupTimer;
               TimerFired (RetryTimer AfterSignature);
               ProbeDone AfterSignature (Response 200)])
    as (s1 & s2 & r & H1 & _ & _ & H2 & _ & _ & _ & Hiff); [reflexivity..|].
  exists s2. split.
  - change (run ?s (?e :: ?es)) with (s' ← step s e; run s' es).
    rewrite H1. exact H2.
  - injection H1 as <-.
    destruct Hiff as (Hiff & _); [reflexivity..|].
    apply Hiff. rewrite !elem_of_cons. do 4 right. by left.
Defined.

(** ** Signals *)

Lemma killsAccounted_init h : killsAccounted (startFlaskServer h idle).
Proof.
  unfold killsAccounted, startFlaskServer.
  destruct (getPythonPath _ _); [destruct (scriptExists h)|];
    unfold count; simpl; repeat split; (lia || done).
Qed.

Lemma killsAccounted_step s e s' :
  killsAccounted s → step s e = Ok s' → killsAccounted s'.
Proof.
  unfold killsAccounted. intros (Hacc & Hone & Hdead) H.
  destruct e as [d|d|m|c|[|who|]|who o|]; step_cases;
    unfold count in *; rewrite ?List.filter_app, ?length_app; simpl;
    rewrite ?Nat.add_0_r;
    try (repeat split; first [lia | done | assumption]).
  all: destruct (length (List.filter isSigkill (log s))) as [|[|?]] eqn:El;
    try lia; try (by specialize (Hdead eq_refl));
    repeat split; try lia; try done; try (intros; congruence).
Qed.

Lemma killsAccounted_run es : ∀ s s',
  killsAccounted s → run s es = Ok s' → killsAccounted s'.
Proof.
  induction es as [|e es IH]; intros s s' I Hrun; simpl in *.
  - by injection Hrun as <-.
  - destruct (step_total s e) as [s1 H1]. rewrite H1 in Hrun.
    eauto using killsAccounted_step.
Qed.

Lemma step_no_stop s e s' :
  isStop e = false →
  graceTimers s = 0%nat →
  step s e = Ok s' →
  graceTimers s' = 0%nat ∧ count isKill (log s') = count isKill (log s).
Proof.
  intros He Hg H.
  destruct e as [d|d|m|c|[|who|]|who o|]; try discriminate He; step_cases;
    unfold count; rewrite ?List.filter_app, ?length_app; simpl;
    (split; [done|lia]).
Qed.

(** X9. In every run the child is signalled only on request and escalation
    is bounded: without a stop request no signal is ever sent; SIGKILL is
    sent at most once; and each SIGKILL answers an earlier SIGTERM whose
    grace timer it consumes, so SIGKILLs never outnumber SIGTERMs. *)
Theorem signals_follow_stop_requests (h : Host) (es : list Event) (s : Sup) :
  run (startFlaskServer h idle) es = Ok s →
  (count isSigkill (log s) ≤ 1)%nat
  ∧ (count isSigkill (log s) + graceTimers s ≤ count isSigterm (log s))%nat
  ∧ (existsb isStop es = false → count isKill (log s) = 0%nat).
Proof.
  intros Hrun.
  pose proof (killsAccounted_run es _ _ (killsAccounted_init h) Hrun)
    as (Hacc & Hone & _).
  split; [done|]. split; [done|]. intros Hno.
  assert (∀ s0, graceTimers s0 = 0%nat → run s0 es = Ok s →
                count isKill (log s) = count isKill (log s0)) as Hgen.
  { clear Hrun Hacc Hone.
    induction es as [|e es IH]; intros s0 Hg Hrun; simpl in *.
    - by injection Hrun as <-.
    - apply orb_false_iff in Hno as [He Hno].
      destruct (step_total s0 e) as [s1 H1]. rewrite H1 in Hrun.
      destruct (step_no_stop _ _ _ He Hg H1) as [Hg1 <-].
      by apply IH. }
  rewrite (Hgen (startFlaskServer h idle)); [|clear; unfold startFlaskServer|done].
  - unfold startFlaskServer.
    destruct (getPythonPath _ _); [destruct (scriptExists h)|]; done.
  - destruct (getPythonPath _ _); [destruct (scriptExists h)|]; done.
Qed.

Lemma signals_follow_stop_requests_witness :
  (count isSigkill
     (log (onClose (Some 1%Z) (startFlaskServer okHost idle))) ≤ 1)%nat.
Proof.
  apply (signals_follow_stop_requests okHost [ProcClose (Some 1)]
           (onClose (Some 1) (startFlaskServer okHost idle))).
  reflexivity.
Defined.

(** ** What the startup output holds *)

Lemma append_assoc (a b c : string) : (a +:+ b) +:+ c = a +:+ (b +:+ c).
Proof.
  induction a as [|x a IH]; [done|]. rewrite !append_String. by rewrite IH.
Qed.

Lemma append_empty_r (a : string) : a +:+ "" = a.
Proof. induction a as [|x a IH]; [done|]. by rewrite append_String, IH. Qed.

(** X10. The text kept in [startupOutput] for diagnosis is exactly the
    concatenation, in arrival order, of the chunks received on the child's
    standard output; chunks received on standard error are never part of
    it, and without a launch it stays empty. *)
Theorem startupOutput_is_stdout (h : Host) (es : list Event) (s : Sup) :
  run (startFlaskServer h idle) es = Ok s →
  startupOutput s = if launches h then stdoutOf es else "".
Proof.
  assert (∀ s0, run s0 es = Ok s →
                startupOutput s
                = if listening s0 then startupOutput s0 +:+ stdoutOf es
                  else startupOutput s0) as Hgen.
  { induction es as [|e es IH]; intros s0 Hrun; simpl in Hrun.
    - injection Hrun as <-. simpl. rewrite append_empty_r.
      by destruct (listening s0).
    - destruct (step_total s0 e) as [s1 H1]. rewrite H1 in Hrun.
      simpl in Hrun. rewrite (IH s1 Hrun). clear IH Hrun.
      assert (listening s1 = listening s0
              ∧ startupOutput s1
                = match e with
                  | StdoutData d =>
                      if listening s0 then startupOutput s0 +:+ d
                      else startupOutput s0
                  | _ => startupOutput s0
                  end) as [-> ->].
      { destruct e as [d|d|m|c|[|who|]|who o|]; by step_cases. }
      destruct e as [d| | | | | |]; simpl; try done.
      destruct (listening s0); [|done]. apply append_assoc. }
  intros Hrun. rewrite (Hgen _ Hrun). unfold launches, startFlaskServer.
  destruct (getPythonPath _ _); [destruct (scriptExists h)|]; done.
Qed.

Lemma startupOutput_is_stdout_witness :
  startupOutput
    (onStdout "world"
       (onStderr "Permission denied"
          (onStdout "hello " (startFlaskServer okHost idle))))
  = "hello world".
Proof.
  apply (startupOutput_is_stdout okHost
           [StdoutData "hello "; StderrData "Permission denied";
            StdoutData "world"]).
  reflexivity.
Defined.

(** ** The application as a whole *)

Lemma startFlaskServer_spawn_count h s :
  count isSpawn (log (startFlaskServer h s))
  = (count isSpawn (log s) + if launches h then 1 else 0)%nat.
Proof.
  unfold launches, startFlaskServer.
  destruct (getPythonPath _ _); [destruct (scriptExists h)|]; simpl;
    rewrite ?count_app; unfold count; simpl; lia.
Qed.

Lemma appRun_spawn_count h es : ∀ a a',
  appRun h a es = Ok a' →
  count isSpawn (log (sup a')) = count isSpawn (log (sup a)).
Proof.
  induction es as [|e es IH]; intros a a' Hrun; simpl in *.
  - by injection Hrun as <-.
  - destruct (appStep_total h a e) as [a1 H1].
    unfold mbind, Exc_bind in Hrun. rewrite H1 in Hrun. simpl in Hrun.
    destruct (appStep_spawn _ _ _ _ H1) as [<- _]. by apply IH.
Qed.

(** X11. A run of the application creates at most one backend process, and
    exactly one when the port check lets startup proceed (port free, or the
    user did not pick "Quitter"), some Python command works and the script
    exists; no later event, re-activation included, spawns another. *)
Theorem one_backend_per_run (h : Host) (es : list AppEvent) (a0 a : App) :
  whenReady h = Ok a0 →
  appRun h a0 es = Ok a →
  count isSpawn (log (sup a))
  = if reachesStart h && launches h then 1%nat else 0%nat.
Proof.
  intros H0 Hrun. rewrite (appRun_spawn_count _ _ _ _ Hrun). clear Hrun.
  assert (∀ b, count isSpawn (log (sup b)) = 0%nat →
               launch h b = Ok a0 →
               count isSpawn (log (sup a0))
               = if launches h then 1%nat else 0%nat) as Hlaunch.
  { intros b Hb. unfold launch.
    intros (acts & Hlog & Hsp & _)%afterStartup_log. simpl in Hlog.
    rewrite Hlog, count_app, (count_none _ _ Hsp),
      startFlaskServer_spawn_count, Hb. lia. }
  unfold whenReady, reachesStart in *. simpl in *.
  destruct (portBusy h); simpl in *; [|by eapply Hlaunch; [|exact H0]].
  destruct (portChoice h =? 0); simpl in *;
    [|by eapply Hlaunch; [|exact H0]].
  apply appQuit_spec in H0 as (_ & _ & acts & Hlog & Hacts). simpl in Hlog.
  rewrite Hlog. change (ShowDialog "Port occupé" :: Quit :: acts)
    with ([ShowDialog "Port occupé"; Quit] ++ acts).
  by rewrite count_app, (count_backend _ _ isSpawn_backend Hacts).
Qed.

Lemma one_backend_per_run_witness :
  ∃ a0 a,
    whenReady okHost = Ok a0
    ∧ appRun okHost a0 [ReadyToShow; Activate 0; Activate 0] = Ok a
    ∧ count isSpawn (log (sup a)) = 1%nat.
Proof.
  assert (∃ a0, whenReady okHost = Ok a0) as [a0 H0]
    by (eexists; reflexivity).
  destruct (appRun_total okHost [ReadyToShow; Activate 0; Activate 0] a0)
    as [a Ha].
  exists a0, a. split; [done|]. split; [done|].
  exact (one_backend_per_run okHost _ a0 a H0 Ha).
Defined.

Lemma appStep_log h a e a' :
  appStep h a e = Ok a' →
  ∃ acts, log (sup a') = log (sup a) ++ acts
          ∧ Forall (λ x, isSpawn x = false) acts.
Proof.
  destruct e as [e| |n]; simpl.
  - destruct (step_total (sup a) e) as [s Hs].
    unfold mbind, Exc_bind. rewrite Hs. simpl.
    intros (acts & Hlog & Hsp & _)%afterStartup_log. simpl in Hlog.
    destruct (step_log _ _ _ Hs) as (acts0 & Hlog0 & Hb).
    exists (acts0 ++ acts). split; [by rewrite Hlog, Hlog0, app_assoc|].
    apply Forall_app. split; [|done].
    eapply Forall_impl; [exact Hb|]. apply isSpawn_backend.
  - destruct (stage a), (readyHooks a); intros [= <-];
      first [ by exists []; rewrite app_nil_r
            | by eexists; split; [reflexivity|repeat constructor] ].
  - destruct (stage a); intros [= <-];
      try (by exists []; rewrite app_nil_r).
    destruct (n =? 0)%nat;
      first [ by exists []; rewrite app_nil_r
            | by eexists; split; [reflexivity|repeat constructor] ].
Qed.

Lemma appRun_log h es : ∀ a a',
  appRun h a es = Ok a' →
  ∃ acts, log (sup a') = log (sup a) ++ acts
          ∧ Forall (λ x, isSpawn x = false) acts.
Proof.
  induction es as [|e es IH]; intros a a' Hrun; simpl in *.
  - injection Hrun as <-. exists []. by rewrite app_nil_r.
  - destruct (appStep_total h a e) as [a1 H1].
    unfold mbind, Exc_bind in Hrun. rewrite H1 in Hrun. simpl in Hrun.
    destruct (appStep_log _ _ _ _ H1) as (acts1 & Hlog1 & Hs1).
    destruct (IH _ _ Hrun) as (acts & Hlog & Hs).
    exists (acts1 ++ acts). split; [by rewrite Hlog, Hlog1, app_assoc|].
    by apply Forall_app.
Qed.

Lemma spawn_not_in l cmd args env :
  Forall (λ x, isSpawn x = false) l → Spawn cmd args env ∉ l.
Proof.
  intros Hl Hin. rewrite Forall_forall in Hl. by specialize (Hl _ Hin).
Qed.

Lemma whenReady_spawn_env h a cmd args env :
  whenReady h = Ok a →
  Spawn cmd args env ∈ log (sup a) →
  env = flaskEnv (penv h) (loadEnvFile (envFile h)) (isDev h).
Proof.
  assert (∀ b, Forall (λ x, isSpawn x = false) (log (sup b)) →
               launch h b = Ok a →
               Spawn cmd args env ∈ log (sup a) →
               env = flaskEnv (penv h) (loadEnvFile (envFile h)) (isDev h))
    as Hlaunch.
  { intros b Hb. unfold launch.
    intros (acts & Hlog & Hsp & _)%afterStartup_log. simpl in Hlog.
    rewrite Hlog, elem_of_app. intros [Hin|Hin].
    - apply startFlaskServer_spawn in Hin as [Hin | ->]; [|done].
      by apply spawn_not_in in Hin.
    - by apply spawn_not_in in Hin. }
  unfold whenReady.
  destruct (negb _); [destruct (portChoice h =? 0)|].
  - intros (_ & _ & acts & Hlog & Hacts)%appQuit_spec. simpl in Hlog.
    rewrite Hlog. intros Hin. exfalso. revert Hin. apply spawn_not_in.
    repeat constructor. eapply Forall_impl; [exact Hacts|].
    apply isSpawn_backend.
  - apply Hlaunch. by repeat constructor.
  - apply Hlaunch. constructor.
Qed.

(** X12. The address the renderer is told and the address the backend is
    told are the same: whenever a backend was spawned and the
    ['flask-server-ready'] message was sent, the message's host and port are
    the [FLASK_HOST] and [FLASK_PORT] of the child's environment, and its URL
    is [http://host:port], the value ['get-flask-url'] returns. A
    [FLASK_PORT] set only in [.env] is not used by either. *)
Theorem published_address_matches_child
    (h : Host) (es : list AppEvent) (a0 a : App)
    (cmd : string) (args : list string) (env : gmap string string)
    (channel : string) (p : ReadyPayload) :
  whenReady h = Ok a0 →
  appRun h a0 es = Ok a →
  Spawn cmd args env ∈ log (sup a) →
  Send channel p ∈ log (sup a) →
  channel = readyChannel
  ∧ env !! "FLASK_HOST" = Some (host p)
  ∧ env !! "FLASK_PORT" = Some (port p)
  ∧ url p = "http://" +:+ host p +:+ ":" +:+ port p
  ∧ url p = getFlaskUrl (penv h)
  ∧ port p = envOr (penv h) "FLASK_PORT" "5000".
Proof.
  intros H0 Hrun Hspawn Hsend.
  pose proof (appRun_inv _ _ _ _ (whenReady_inv _ _ H0) Hrun) as I.
  pose proof (inv_payload _ _ I) as Hp. rewrite Forall_forall in Hp.
  specialize (Hp _ Hsend eq_refl). injection Hp as -> ->.
  destruct (appRun_log _ _ _ _ Hrun) as (acts & Hlog & Hacts).
  rewrite Hlog, elem_of_app in Hspawn.
  destruct Hspawn as [Hin|Hin]; [|by apply spawn_not_in in Hin].
  rewrite (whenReady_spawn_env _ _ _ _ _ H0 Hin).
  rewrite !flaskEnv_lookup. unfold layered, runtimeOverrides.
  by simplify_map_eq.
Qed.

Lemma published_address_matches_child_witness :
  ∃ a, appRun okHost
         (mkApp (startFlaskServer okHost idle) Starting 0)
         [Backend (StdoutData "Running on http://127.0.0.1:5000");
          Backend (ProbeDone AfterSignature (Response 200));
          ReadyToShow] = Ok a
       ∧ flaskEnv ∅ ∅ false !! "FLASK_PORT" = Some "5000".
Proof.
  destruct (appRun_total okHost
              [Backend (StdoutData "Running on http://127.0.0.1:5000");
               Backend (ProbeDone AfterSignature (Response 200));
               ReadyToShow]
              (mkApp (startFlaskServer okHost idle) Starting 0)) as [a Ha].
  exists a. split; [done|].
  destruct (published_address_matches_child okHost _ _ a
              "python3" [scriptPath] (flaskEnv ∅ ∅ false)
              readyChannel (readyPayload okHost) eq_refl Ha)
    as (_ & _ & Hport & _).
  - vm_compute in Ha. injection Ha as <-. simpl.
    rewrite elem_of_cons. by left.
  - vm_compute in Ha. injection Ha as <-. simpl.
    rewrite !elem_of_cons. do 4 right. by left.
  - exact Hport.
Defined.

Lemma afterStartup_kills h a a' :
  afterStartup h a = Ok a' →
  stage a' ≠ Exited →
  stage a ≠ Exited
  ∧ graceTimers (sup a') = graceTimers (sup a)
  ∧ count isKill (log (sup a')) = count isKill (log (sup a)).
Proof.
  unfold afterStartup. intros H Hne.
  destruct (stage a) eqn:Hst;
    [|injection H as <-; first [done | by rewrite Hst in Hne]..].
  destruct (startup (sup a)) as [| |r].
  - by injection H as <-.
  - injection H as <-. simpl. rewrite count_app. unfold count. simpl.
    repeat split; [done|lia].
  - destruct (failChoice h =? 0).
    + by apply appQuit_spec in H as (Hex & _).
    + injection H as <-. simpl. rewrite !count_app. unfold count. simpl.
      repeat split; [done|lia].
Qed.

Lemma appStep_kills h a e a' :
  isAppStop e = false →
  appStep h a e = Ok a' →
  stage a' ≠ Exited →
  graceTimers (sup a) = 0%nat →
  stage a ≠ Exited
  ∧ graceTimers (sup a') = 0%nat
  ∧ count isKill (log (sup a')) = count isKill (log (sup a)).
Proof.
  intros He H Hne Hg. destruct e as [e| |n]; simpl in H.
  - destruct (step_total (sup a) e) as [s Hs].
    unfold mbind, Exc_bind in H. rewrite Hs in H. simpl in H.
    destruct (afterStartup_kills _ _ _ H Hne) as (Hst & Hg' & Hk').
    simpl in *.
    assert (isStop e = false) as He' by (by destruct e).
    destruct (step_no_stop _ _ _ He' Hg Hs) as [Hg1 Hk1].
    repeat split; [done|congruence|congruence].
  - destruct (stage a) eqn:Hst, (readyHooks a); injection H as <-;
      simpl in *; rewrite ?count_app; unfold count; simpl;
      repeat split; try done; try lia; by rewrite Hst in Hne.
  - destruct (stage a) eqn:Hst; injection H as <-;
      try (repeat split; try done; by rewrite Hst in Hne).
    destruct (n =? 0)%nat; simpl; rewrite ?count_app; unfold count; simpl;
      rewrite ?Hst; repeat split; try done; lia.
Qed.

(** X13. The application signals the backend only when quitting or when a
    stop is requested: as long as no stop request has arrived and the
    application has not quit from a dialog, no event makes it send SIGTERM
    or SIGKILL. In particular a backend whose startup failed keeps running
    after "Continuer sans serveur". *)
Theorem no_signal_without_stop_or_quit
    (h : Host) (es : list AppEvent) (a0 a : App) :
  whenReady h = Ok a0 →
  appRun h a0 es = Ok a →
  existsb isAppStop es = false →
  stage a ≠ Exited →
  count isKill (log (sup a)) = 0%nat ∧ graceTimers (sup a) = 0%nat.
Proof.
  intros H0 Hrun Hes Hne.
  assert (∀ b, appRun h b es = Ok a →
               stage b ≠ Exited
               ∧ (graceTimers (sup b) = 0%nat →
                  graceTimers (sup a) = 0%nat
                  ∧ count isKill (log (sup a)) = count isKill (log (sup b))))
    as Hgen.
  { clear H0 Hrun. induction es as [|e es IH]; intros b Hrun; simpl in *.
    - injection Hrun as <-. done.
    - apply orb_false_iff in Hes as [He Hes].
      destruct (appStep_total h b e) as [b1 H1].
      unfold mbind, Exc_bind in Hrun. rewrite H1 in Hrun. simpl in Hrun.
      destruct (IH Hes b1 Hrun) as [Hne1 Hrest].
      split.
      + intros Hex. destruct (appStep_spawn _ _ _ _ H1) as [_ Habs].
        by apply Hne1, Habs.
      + intros Hg.
        destruct (appStep_kills _ _ _ _ He H1 Hne1 Hg) as (_ & Hg1 & Hk1).
        destruct (Hrest Hg1) as [Hga Hka]. split; [done|congruence]. }
  destruct (Hgen a0 Hrun) as [Hne0 Hrest].
  assert (graceTimers (sup a0) = 0%nat
          ∧ count isKill (log (sup a0)) = 0%nat) as [Hg0 Hk0].
  { clear Hrest Hgen Hrun.
    assert (∀ b, graceTimers (sup b) = 0%nat →
                 count isKill (log (sup b)) = 0%nat →
                 launch h b = Ok a0 →
                 graceTimers (sup a0) = 0%nat
                 ∧ count isKill (log (sup a0)) = 0%nat) as Hlaunch.
    { intros b Hg Hk. unfold launch. intros Hl.
      destruct (afterStartup_kills _ _ _ Hl Hne0) as (_ & -> & ->).
      simpl. unfold startFlaskServer.
      destruct (getPythonPath _ _); [destruct (scriptExists h)|]; simpl;
        rewrite ?count_app, ?Hk; unfold count; simpl; done. }
    unfold whenReady in H0.
    destruct (negb _); [destruct (portChoice h =? 0)|].
    - by apply appQuit_spec in H0 as (Hex & _).
    - by eapply Hlaunch; [| |exact H0].
    - by eapply Hlaunch; [| |exact H0]. }
  destruct (Hrest Hg0) as [Hga Hka]. split; [congruence|done].
Qed.

Lemma no_signal_without_stop_or_quit_witness :
  ∃ a0 a,
    whenReady okHost = Ok a0
    ∧ appRun okHost a0
        [Backend (StderrData "ImportError: cannot import name app");
         ReadyToShow; Backend (ProcClose (Some 1))] = Ok a
    ∧ count isKill (log (sup a)) = 0%nat.
Proof.
  assert (∃ a0, whenReady okHost = Ok a0) as [a0 H0]
    by (eexists; reflexivity).
  destruct (appRun_total okHost
              [Backend (StderrData "ImportError: cannot import name app");
               ReadyToShow; Backend (ProcClose (Some 1))] a0) as [a Ha].
  exists a0, a. split; [done|]. split; [done|].
  apply (no_signal_without_stop_or_quit okHost _ a0 a H0 Ha); [reflexivity|].
  injection H0 as <-. vm_compute in Ha. injection Ha as <-. discriminate.
Defined.

(** ** The poller at any budget *)

Lemma pollRun_cap es : ∀ r fx,
  (length (List.filter isRequest (snd (pollRun (r, fx) es)))
   + timers (fst (pollRun (r, fx) es)) + cap r
   = length (List.filter isRequest fx) + timers r
     + cap (fst (pollRun (r, fx) es)))%nat
  ∧ (length (List.filter isRequest fx)
     ≤ length (List.filter isRequest (snd (pollRun (r, fx) es))))%nat
  ∧ maxRetries (vars (fst (pollRun (r, fx) es))) = maxRetries (vars r).
Proof.
  induction es as [|e es IH]; intros r fx; [done|].
  cbn [pollRun fst snd].
  destruct (IH (fst (pollStep r e)) (fx ++ snd (pollStep r e)))
    as (Hcap & Hle & Hmax).
  destruct (pollStep_cap r e) as (Hstep & Hmax' & _).
  rewrite count_effects_app in Hcap, Hle.
  repeat split; [lia|lia|congruence].
Qed.

(** X14. [checkFlaskServer] at any budget [n], a budget of 0 behaving like
    a budget of 1. In every run, whatever its requests do, it issues at
    least one request and at most [max 1 n]. In a run where every request
    calls back once (no timeout), requests go out one at a time, each after
    the timer armed by the failure of the one before; [retries] counts the
    failed requests; the poll resolves at the first 200, with nothing
    after it, and rejects with "Flask server did not respond in time" right
    after failure number [max 1 n], with nothing after it. *)
Theorem checkFlaskServer_any_budget (n : nat) (d : Z) (es : list PollEvent) :
  (1 ≤ length (List.filter isRequest (snd (pollRun (checkFlaskServer n d) es)))
   ≤ Nat.max 1 n)%nat
  ∧ (pollFeasible (fst (checkFlaskServer n d)) es = true →
     forallb (λ e, negb (timesOut e)) es = true →
     ∃ r fx,
       pollRun (checkFlaskServer n d) es = (r, fx)
       ∧ retries (vars r) = failures es
       ∧ ((settled r = None ∧ existsb is200 es = false
           ∧ (failures es < Nat.max 1 n)%nat
           ∧ waiting r = 1%nat ∧ timers r = 0%nat
           ∧ fx = rounds d (failures es) ++ [Request])
          ∨ (settled r = None ∧ existsb is200 es = false
             ∧ (0 < failures es < n)%nat
             ∧ waiting r = 0%nat ∧ timers r = 1%nat
             ∧ fx = rounds d (failures es))
          ∨ (settled r = Some Resolve ∧ existsb is200 es = true
             ∧ (failures es < Nat.max 1 n)%nat
             ∧ waiting r = 0%nat ∧ timers r = 0%nat
             ∧ fx = rounds d (failures es) ++ [Request; Settled Resolve])
          ∨ (settled r = Some (Reject notResponding)
             ∧ existsb is200 es = false
             ∧ failures es = Nat.max 1 n
             ∧ waiting r = 0%nat ∧ timers r = 0%nat
             ∧ fx = rounds d (pred (Nat.max 1 n))
                    ++ [Request; Settled (Reject notResponding)]))).
Proof.
  split.
  - destruct (pollRun_cap es (fst (checkFlaskServer n d)) [Request])
      as (Hcap & Hle & Hmax).
    change (fst (checkFlaskServer n d), [Request])
      with (checkFlaskServer n d) in *.
    unfold cap in Hcap. rewrite Hmax in Hcap.
    cbn -[Nat.max Nat.min pollRun] in *. lia.
  - intros Hfe Hto.
    pose proof (sequential_run n d es 0 false _ _ (sequential_init n d)
                  Hfe Hto) as Hseq.
    change (fst (checkFlaskServer n d), snd (checkFlaskServer n d))
      with (checkFlaskServer n d) in Hseq.
    destruct (pollRun (checkFlaskServer n d) es) as [r fx].
    exists r, fx. split; [done|].
    destruct Hseq as (Hv & _ & Hcase). simpl in *.
    split; [by rewrite Hv|].
    destruct Hcase as [H|[H|[H|H]]];
      destruct H as (Hs & Hg & Hw & Htm & Hk & Hfx).
    + left. done.
    + right. left. done.
    + right. right. left. done.
    + right. right. right. repeat split; try done. by rewrite <- Hk.
Qed.

Lemma checkFlaskServer_any_budget_witness :
  snd (pollRun (checkFlaskServer 3 1000)
         [Fires RequestError; RetryFired; Fires (Response 503); RetryFired;
          Fires (Response 200)])
  = [Request; Timer 1000; Request; Timer 1000; Request; Settled Resolve]
  ∧ snd (pollRun (checkFlaskServer 0 1000) [Fires RequestError])
    = [Request; Settled (Reject notResponding)].
Proof.
  split.
  - destruct (checkFlaskServer_any_budget 3 1000
                [Fires RequestError; RetryFired; Fires (Response 503);
                 RetryFired; Fires (Response 200)])
      as (_ & H).
    destruct H as (r & fx & Hrun & _ & Hcase); [reflexivity..|].
    rewrite Hrun. simpl.
    destruct Hcase as [H|[H|[H|H]]];
      destruct H as (_ & Hg & _ & _ & _ & Hfx); try discriminate Hg.
    exact Hfx.
  - destruct (checkFlaskServer_any_budget 0 1000 [Fires RequestError])
      as (_ & H).
    destruct H as (r & fx & Hrun & _ & Hcase); [reflexivity..|].
    rewrite Hrun. simpl.
    destruct Hcase as [H|[H|[H|H]]];
      destruct H as (_ & _ & Hk & _ & _ & Hfx);
      try (vm_compute in Hk; lia).
    exact Hfx.
Defined.

(** ** White space around a line of the overlay *)

Lemma trimEnd_snoc_white s w :
  JsString.is_white w = true →
  JsString.trimEnd (s +:+ String w "") = JsString.trimEnd s.
Proof.
  intros Hw. induction s as [|c s IH].
  - rewrite append_empty_l. cbn [JsString.trimEnd JsString.is_empty].
    by rewrite Hw.
  - rewrite append_String. cbn [JsString.trimEnd]. by rewrite IH.
Qed.

Lemma trim_snoc_white s w :
  JsString.is_white w = true →
  JsString.trim (s +:+ String w "") = JsString.trim s.
Proof.
  intros Hw. induction s as [|c s IH].
  - rewrite append_empty_l. unfold JsString.trim.
    cbn [JsString.trimStart]. by rewrite Hw.
  - rewrite append_String. unfold JsString.trim in *.
    cbn [JsString.trimStart]. destruct (JsString.is_white c); [done|].
    rewrite <- append_String. by apply trimEnd_snoc_white.
Qed.

(** X15. Surrounding white space never changes what a line of [.env]
    contributes: a line and its trimmed form bind the same, and so do a
    line and the same line followed by a carriage return, so a file with
    CRLF line endings is read like the same file with LF endings. *)
Theorem overlay_ignores_outer_white_space :
  (∀ line, parseEnvLine (JsString.trim line) = parseEnvLine line)
  ∧ (∀ line, parseEnvLine (line +:+ String "013" "") = parseEnvLine line)
  ∧ (∀ lines,
       loadEnvLines (map (λ l, l +:+ String "013" "") lines)
       = loadEnvLines lines).
Proof.
  assert (∀ line, parseEnvLine (line +:+ String "013" "") = parseEnvLine line)
    as Hcr.
  { intros line. unfold parseEnvLine.
    by rewrite (trim_snoc_white line "013" eq_refl). }
  split; [|split; [done|]].
  - intros line. unfold parseEnvLine. by rewrite trim_idem.
  - intros lines. unfold loadEnvLines. generalize (∅ : gmap string string).
    induction lines as [|l lines IH]; intros m; [done|].
    simpl. rewrite <- IH. unfold envLineStep at 2 4. by rewrite Hcr.
Qed.

(** ** Signatures and chunk boundaries *)

Lemma startsWith_app n a b :
  JsString.startsWith n a = true → JsString.startsWith n (a +:+ b) = true.
Proof.
  revert a. induction n as [|x n IH]; intros a; [done|].
  destruct a as [|y a]; [done|]. rewrite append_String.
  cbn [JsString.startsWith]. intros [-> H]%andb_true_iff.
  by rewrite (IH _ H).
Qed.

Lemma includes_app_l n a b :
  JsString.includes n a = true → JsString.includes n (a +:+ b) = true.
Proof.
  induction a as [|y a IH].
  - destruct n as [|x n]; [|by cbn].
    intros _. rewrite append_empty_l. destruct b; reflexivity.
  - rewrite append_String. cbn [JsString.includes].
    intros [H|H]%orb_true_iff.
    + rewrite <- append_String, (startsWith_app _ _ b H). done.
    + rewrite (IH H). apply orb_true_r.
Qed.

Lemma includes_app_r n a b :
  JsString.includes n b = true → JsString.includes n (a +:+ b) = true.
Proof.
  intros H. induction a as [|y a IH]; [done|].
  rewrite append_String. cbn [JsString.includes]. rewrite IH.
  apply orb_true_r.
Qed.

(** X16. Signatures are looked for chunk by chunk, and merging never loses
    one: if either of two consecutive chunks shows a readiness (or fatal)
    signature, so does their concatenation delivered as a single chunk. The
    converse fails: [Running on] cut into [Runn] and [ing on] is seen in
    neither piece. *)
Theorem merging_chunks_keeps_signatures :
  (∀ a b, readySignature a || readySignature b = true →
          readySignature (a +:+ b) = true)
  ∧ (∀ a b, fatalSignature a || fatalSignature b = true →
            fatalSignature (a +:+ b) = true)
  ∧ readySignature ("Runn" +:+ "ing on") = true
  ∧ readySignature "Runn" || readySignature "ing on" = false.
Proof.
  split; [|split; [|by vm_compute]].
  - intros a b [Ha|Hb]%orb_true_iff; unfold readySignature in *.
    + apply orb_true_iff in Ha as [[H|H]%orb_true_iff|H];
        rewrite (includes_app_l _ _ b H), ?orb_true_r; reflexivity.
    + apply orb_true_iff in Hb as [[H|H]%orb_true_iff|H];
        rewrite (includes_app_r _ a _ H), ?orb_true_r; reflexivity.
  - intros a b [Ha|Hb]%orb_true_iff; unfold fatalSignature in *.
    + apply orb_true_iff in Ha as [[[H|H]%orb_true_iff|H]%orb_true_iff|H];
        rewrite (includes_app_l _ _ b H), ?orb_true_r; reflexivity.
    + apply orb_true_iff in Hb as [[[H|H]%orb_true_iff|H]%orb_true_iff|H];
        rewrite (includes_app_r _ a _ H), ?orb_true_r; reflexivity.
Qed.
